(** * Omex front end: the upload client and the mind-map viewer

    A shallow embedding of
      - [src/frontend/project/src/lib/api.js]  ([uploadPDF]), and
      - the [MindmapViewer] React component (zoom state, staggered
        rendering through mermaid, the SVG download button),
    together with the properties the specification states about them.

    JavaScript strings are sequences of UTF-16 code units, numbers are
    IEEE-754 binary64 values (Rocq's primitive floats), promises are
    represented by the way they settle, and the browser objects the code
    talks to (fetch, the DOM, object URLs, timers, the console) are
    explicit state.  What lies outside the two source files is a
    parameter: the markup mermaid returns, the HTML parser, the XML
    serializer, the page around the component and the imported
    [NeonBorder] component ([Host]).

    The component is followed from mounting, for as long as it keeps the
    props it was mounted with (the effect, whose dependency is
    [mindmaps], runs once); what a later run of the effect does is
    stated for the effect and its callbacks themselves.

    Left out, since no property below reads them: the options passed to
    [mermaid.initialize] and the presentation attributes of the inline
    icons. *)

From Stdlib Require Import ZArith Floats List Ascii String Lia Bool.
From stdpp Require Import base option list gmap strings pretty.
Import ListNotations.

Set Warnings "-inexact-float,-register-all".
Set Default Proof Using "Type".

(* ===================================================================== *)
(** ** JavaScript strings *)
(* ===================================================================== *)

(** A JavaScript string: the list of its UTF-16 code units. *)
Definition JsString : Type := list N.

(** A string literal of the source (ASCII), as a JavaScript string. *)
Definition lit (s : string) : JsString :=
  map N_of_ascii (list_ascii_of_string s).

(** Template-literal conversion of an array index: its decimal digits. *)
Definition decimal (n : nat) : JsString := lit (pretty n).

(** [s.includes(m)]: [m] occurs in [s] as a contiguous run. *)
Definition includes (s m : JsString) : Prop :=
  exists pre post, s = pre ++ m ++ post.

(* ===================================================================== *)
(** ** JavaScript numbers *)
(* ===================================================================== *)

Module Number.

(** ToBoolean on a number: false for [+0], [-0] and [NaN]. *)
Definition truthy (x : float) : bool :=
  negb (PrimFloat.is_zero x || PrimFloat.is_nan x).

(** [x || d] where [x] is a number or [undefined] ([None]). *)
Definition or_default (x : option float) (d : float) : float :=
  match x with
  | Some v => if truthy v then v else d
  | None => d
  end.

(** [Math.max(a, b)]: [NaN] if either is [NaN]; [+0] is larger than [-0]. *)
Definition max (a b : float) : float :=
  if PrimFloat.is_nan a || PrimFloat.is_nan b then PrimFloat.nan
  else if PrimFloat.ltb a b then b
  else if PrimFloat.ltb b a then a
  else if PrimFloat.get_sign a then b else a.

(** [Math.min(a, b)]: [NaN] if either is [NaN]; [-0] is smaller than [+0]. *)
Definition min (a b : float) : float :=
  if PrimFloat.is_nan a || PrimFloat.is_nan b then PrimFloat.nan
  else if PrimFloat.ltb a b then a
  else if PrimFloat.ltb b a then b
  else if PrimFloat.get_sign a then a else b.

(** The value of [Math.round]: an integer, or one of the non-finite
    numbers it passes through unchanged. *)
Inductive rounded : Type :=
| Int (z : Z)
| NaN
| Infinity (negative : bool).

(** [Math.round(x)] is [floor(x + 1/2)] computed exactly (ties go up).
    A finite double is [(-1)^s * m * 2^e]; for [e < 0] the floor is taken
    on the integer fraction [(2 * (+-m) + 2^-e) / 2^(1-e)]. *)
Definition round (x : float) : rounded :=
  match Prim2SF x with
  | S754_nan => NaN
  | S754_infinity s => Infinity s
  | S754_zero _ => Int 0
  | S754_finite s m e =>
      let sm := if s then Z.neg m else Z.pos m in
      if (0 <=? e)%Z then Int (sm * 2 ^ e)
      else Int ((2 * sm + 2 ^ (- e)) / 2 ^ (1 - e))
  end.

End Number.

(* ===================================================================== *)
(** ** Promises, errors and the console *)
(* ===================================================================== *)

(** An error object: its constructor name and its [message]. *)
Record JsError : Type := mkError {
  error_name : string;
  message : JsString
}.

(** How a promise settles. *)
Inductive Settled (A : Type) : Type :=
| Resolved (value : A)
| Rejected (reason : JsError).
Arguments Resolved {A} value.
Arguments Rejected {A} reason.

(** One [console.error(label, error)] call. *)
Record LogEntry : Type := mkLog {
  log_label : string;
  log_error : JsError
}.

(* ===================================================================== *)
(** ** The upload client, [api.js] *)
(* ===================================================================== *)

Module Api.

(** A parsed JSON document, as [response.json()] resolves to. *)
Inductive Json : Type :=
| JNull
| JBool (b : bool)
| JNumber (n : float)
| JString (s : JsString)
| JArray (items : list Json)
| JObject (fields : list (JsString * Json)).

(** What the function sees of a [Response]: the status code and the way
    [response.json()] settles (it rejects with the parser's
    [SyntaxError] when the body is not JSON). *)
Record Response : Type := mkResponse {
  status : Z;
  json : Settled Json
}.

(** [response.ok]: the status is in the range 200-299. *)
Definition ok (r : Response) : bool :=
  (200 <=? status r)%Z && (status r <=? 299)%Z.

(** Own property [key] of an object built by the JSON parser; a repeated
    key keeps its last value. *)
Fixpoint field (key : JsString) (fields : list (JsString * Json)) : option Json :=
  match fields with
  | [] => None
  | (k, v) :: rest =>
      match field key rest with
      | Some later => Some later
      | None => if decide (k = key) then Some v else None
      end
  end.

(** [errorData.error]: a [TypeError] on [null], [undefined] ([None]) on
    the primitives and on arrays, the field on an object. *)
Definition get_error (errorData : Json) : JsError + option Json :=
  match errorData with
  | JNull =>
      inl (mkError "TypeError"
             (lit "Cannot read properties of null (reading 'error')"))
  | JObject fields => inr (field (lit "error") fields)
  | _ => inr None
  end.

(** ToBoolean. *)
Definition truthy (v : Json) : bool :=
  match v with
  | JNull => false
  | JBool b => b
  | JNumber n => Number.truthy n
  | JString s => negb (bool_decide (s = []))
  | JArray _ | JObject _ => true
  end.

Section ToString.

(** Number-to-string conversion is left to the engine. *)
Variable number_to_string : float -> JsString.

Definition join_with (sep : JsString) (parts : list JsString) : JsString :=
  match parts with
  | [] => []
  | p :: ps => p ++ concat (map (fun q => sep ++ q) ps)
  end.

(** ToString of the elements of an array, left to right: the first
    conversion that throws ends it. *)
Fixpoint collect (parts : list (JsError + JsString)) : JsError + list JsString :=
  match parts with
  | [] => inr []
  | inl e :: _ => inl e
  | inr s :: rest =>
      match collect rest with
      | inl e => inl e
      | inr strings => inr (s :: strings)
      end
  end.

(** ToString, as [new Error(v)] applies it to its argument.  An array
    joins the conversions of its elements.  An object built by the JSON
    parser is converted by [Object.prototype.toString], unless it has a
    key [toString] of its own: that value is not a function, [valueOf]
    gives no primitive either, and the conversion throws a
    [TypeError]. *)
Fixpoint to_string (v : Json) : JsError + JsString :=
  match v with
  | JNull => inr (lit "null")
  | JBool true => inr (lit "true")
  | JBool false => inr (lit "false")
  | JNumber n => inr (number_to_string n)
  | JString s => inr s
  | JArray items =>
      match collect (map (fun item => match item with
                                      | JNull => inr []
                                      | _ => to_string item
                                      end) items) with
      | inl e => inl e
      | inr strings => inr (join_with (lit ",") strings)
      end
  | JObject fields =>
      match field (lit "toString") fields with
      | Some _ =>
          inl (mkError "TypeError" (lit "Cannot convert object to primitive value"))
      | None => inr (lit "[object Object]")
      end
  end.

(** [new Error(errorData.error || 'Failed to upload file')]: the error
    that is thrown, which is the [TypeError] when the conversion of the
    argument throws. *)
Definition error_or_fallback (e : option Json) : JsError :=
  match e with
  | Some v =>
      if truthy v then
        match to_string v with
        | inl type_error => type_error
        | inr text => mkError "Error" text
        end
      else mkError "Error" (lit "Failed to upload file")
  | None => mkError "Error" (lit "Failed to upload file")
  end.

(** The [try] block of [uploadPDF], given how [fetch] settled. *)
Definition try_block (fetched : Settled Response) : Settled Json :=
  match fetched with
  | Rejected e => Rejected e
  | Resolved response =>
      if negb (ok response) then
        match json response with
        | Rejected e => Rejected e
        | Resolved errorData =>
            match get_error errorData with
            | inl type_error => Rejected type_error
            | inr e => Rejected (error_or_fallback e)
            end
        end
      else json response
  end.

(** [uploadPDF]: the [catch] clause logs whatever was thrown in the
    [try] block and throws it again.  The result is the console
    output and the way the returned promise settles. *)
Definition uploadPDF (fetched : Settled Response)
  : list LogEntry * Settled Json :=
  match try_block fetched with
  | Rejected error => ([mkLog "Error uploading PDF:" error], Rejected error)
  | Resolved data => ([], Resolved data)
  end.

End ToString.

End Api.

(* ===================================================================== *)
(** ** The DOM, as far as the component touches it *)
(* ===================================================================== *)

(** A value assigned to a CSS property: literal text, or the
    [scale(${x})] the viewer builds from a number. *)
Inductive StyleValue : Type :=
| Css (text : string)
| CssScale (factor : float).

(** What an element carries besides its children. *)
Record ElemData : Type := mkElem {
  tag : string;
  elem_id : option JsString;
  className : string;
  style : list (string * StyleValue);
  attributes : list (string * string)
}.

(** Character data: literal text, or a number that JSX interpolates
    (its decimal rendering is left to the engine). *)
Inductive TextData : Type :=
| Str (s : JsString)
| Num (r : Number.rounded)
| Fixed2 (t : float).

Inductive Node : Type :=
| Elem (e : ElemData) (children : list Node)
| Text (data : TextData).

(** An element without id, inline style or attributes. *)
Definition el (tag cls : string) (children : list Node) : Node :=
  Elem (mkElem tag None cls [] []) children.

(** The tokens of a [class] attribute (split at ASCII white space). *)
Definition is_space (c : ascii) : bool :=
  let n := N_of_ascii c in
  (n =? 32)%N || (n =? 9)%N || (n =? 10)%N || (n =? 12)%N || (n =? 13)%N.

Fixpoint tokens_from (current : string) (s : string) : list string :=
  match s with
  | EmptyString => if String.eqb current EmptyString then [] else [current]
  | String c rest =>
      if is_space c then
        (if String.eqb current EmptyString then tokens_from EmptyString rest
         else current :: tokens_from EmptyString rest)
      else tokens_from (current ++ String c EmptyString) rest
  end.

Definition class_tokens (cls : string) : list string :=
  tokens_from EmptyString cls.

(** The selectors that occur in the component. *)
Inductive Simple : Type :=
| ByTag (t : string)
| ByClass (c : string)
| ById (i : JsString).

Inductive Selector : Type :=
| Group (alternatives : list Simple)        (* "a, b, c" *)
| Within (ancestor target : Simple).        (* "a b"     *)

Definition matches_simple (s : Simple) (e : ElemData) : bool :=
  match s with
  | ByTag t => String.eqb (tag e) t
  | ByClass c => existsb (String.eqb c) (class_tokens (className e))
  | ById i => bool_decide (elem_id e = Some i)
  end.

(** [above] lists the ancestors of the element, nearest first. *)
Definition matches (sel : Selector) (above : list ElemData) (e : ElemData) : bool :=
  match sel with
  | Group alternatives => existsb (fun s => matches_simple s e) alternatives
  | Within ancestor target =>
      matches_simple target e && existsb (matches_simple ancestor) above
  end.

(** The elements among [n] and its descendants that match, in document
    order. *)
Fixpoint select (sel : Selector) (above : list ElemData) (n : Node) : list Node :=
  match n with
  | Text _ => []
  | Elem e children =>
      (if matches sel above e then [n] else [])
        ++ flat_map (select sel (e :: above)) children
  end.

(** [root.querySelectorAll(sel)]: the matching descendants of [root].
    [above] are the ancestors of [root] in the host page; a compound
    selector may match against them and against [root] itself. *)
Definition querySelectorAll (sel : Selector) (above : list ElemData) (root : Node)
  : list Node :=
  match root with
  | Text _ => []
  | Elem e children => flat_map (select sel (e :: above)) children
  end.

(** [root.querySelector(sel)]: the first match, or [null]. *)
Definition querySelector (sel : Selector) (above : list ElemData) (root : Node)
  : option Node :=
  head (querySelectorAll sel above root).

(** [element.style[name] = v] and [element.setAttribute(name, v)]. *)
Definition assign {V : Type} (name : string) (v : V) (l : list (string * V))
  : list (string * V) :=
  filter (fun kv => negb (String.eqb (fst kv) name)) l ++ [(name, v)].

Definition set_style (name : string) (v : StyleValue) (e : ElemData) : ElemData :=
  mkElem (tag e) (elem_id e) (className e) (assign name v (style e)) (attributes e).

Definition set_attribute (name v : string) (e : ElemData) : ElemData :=
  mkElem (tag e) (elem_id e) (className e) (style e) (assign name v (attributes e)).

Definition get_style (name : string) (e : ElemData) : option StyleValue :=
  snd <$> find (fun kv => String.eqb (fst kv) name) (style e).

(** Apply [f] to the first element (document order) among the nodes and
    their descendants that satisfies [p]; [None] when there is none. *)
Fixpoint update_first (p : ElemData -> bool) (f : Node -> Node) (n : Node)
  : option Node :=
  match n with
  | Text _ => None
  | Elem e children =>
      if p e then Some (f n)
      else
        Elem e <$>
          (fix first_in (l : list Node) : option (list Node) :=
             match l with
             | [] => None
             | c :: rest =>
                 match update_first p f c with
                 | Some c' => Some (c' :: rest)
                 | None => cons c <$> first_in rest
                 end
             end) children
  end.

Fixpoint update_first_in (p : ElemData -> bool) (f : Node -> Node) (l : list Node)
  : option (list Node) :=
  match l with
  | [] => None
  | c :: rest =>
      match update_first p f c with
      | Some c' => Some (c' :: rest)
      | None => cons c <$> update_first_in p f rest
      end
  end.

(** Apply [f] to every descendant element of [n] that satisfies [p],
    inner elements first ([n] itself is left alone). *)
Fixpoint update_descendants (p : ElemData -> bool) (f : Node -> Node) (n : Node)
  : Node :=
  match n with
  | Text _ => n
  | Elem e children =>
      Elem e (map (fun c =>
                     let c' := update_descendants p f c in
                     match c' with
                     | Elem ce _ => if p ce then f c' else c'
                     | Text _ => c'
                     end) children)
  end.

Definition map_data (g : ElemData -> ElemData) (n : Node) : Node :=
  match n with
  | Elem e children => Elem (g e) children
  | Text _ => n
  end.

Definition children_of (n : Node) : list Node :=
  match n with
  | Elem _ children => children
  | Text _ => []
  end.

(** Some element of the subtree has the tag [t]. *)
Fixpoint has_tag (t : string) (n : Node) : bool :=
  match n with
  | Text _ => false
  | Elem e children => String.eqb (tag e) t || existsb (has_tag t) children
  end.

(** Some element of the subtree has the id [i]. *)
Fixpoint has_id (i : JsString) (n : Node) : bool :=
  match n with
  | Text _ => false
  | Elem e children =>
      bool_decide (elem_id e = Some i) || existsb (has_id i) children
  end.

(* ===================================================================== *)
(** ** [MindmapViewer]: data *)
(* ===================================================================== *)

Record Mindmap : Type := mkMindmap {
  title : JsString;
  code : JsString
}.

(** [mindmaps] is typed [Mindmap[]], yet the component also tests
    [!mindmaps]; [None] is the absent (undefined) prop. *)
Record MindmapViewerProps : Type := mkProps {
  mindmaps : option (list Mindmap);
  processingTime : option float
}.

Record ZoomState : Type := mkZoomState {
  scale : float;
  mindmapId : JsString
}.

(** The React state [zoomStates]: an object used as a map from the
    diagram key to its [ZoomState]. *)
Abbreviation ZoomStates := (gmap JsString ZoomState).

(** The template literal [`mindmap-${index}`]. *)
Definition key (index : nat) : JsString := lit "mindmap-" ++ decimal index.

(** [zoomStates[`mindmap-${index}`]?.scale || 1] *)
Definition currentScale (zoomStates : ZoomStates) (index : nat) : float :=
  Number.or_default (scale <$> zoomStates !! key index) 1%float.

(** The zoom-out button.  [zoomStates] is the state of the render the
    handler was created in; the updater function it passes to
    [setZoomStates] is applied to [prev]. *)
Definition zoomOutClick (zoomStates : ZoomStates) (index : nat)
  : ZoomStates -> ZoomStates :=
  let currentScale := currentScale zoomStates index in
  fun prev =>
    <[key index :=
        mkZoomState (Number.max 0.5%float (currentScale - 0.1)%float) (key index)]> prev.

(** The zoom-in button. *)
Definition zoomInClick (zoomStates : ZoomStates) (index : nat)
  : ZoomStates -> ZoomStates :=
  let currentScale := currentScale zoomStates index in
  fun prev =>
    <[key index :=
        mkZoomState (Number.min 2%float (currentScale + 0.1)%float) (key index)]> prev.

(** [Math.round((zoomStates[`mindmap-${index}`]?.scale || 1) * 100)],
    the number shown between the two zoom buttons. *)
Definition percentage (zoomStates : ZoomStates) (index : nat) : Number.rounded :=
  Number.round (currentScale zoomStates index * 100)%float.

(** The value the render callback assigns to [svg.style.transform]:
    [`scale(${zoomStates[`mindmap-${index}`]?.scale || 1})`]. *)
Definition svg_transform (zoomStates : ZoomStates) (index : nat) : StyleValue :=
  CssScale (currentScale zoomStates index).

(** [title.replace(/\s+/g, '_')]: every maximal run of white space
    becomes one underscore.  [\s] is the ECMAScript WhiteSpace and
    LineTerminator code points. *)
Definition is_whitespace (c : N) : bool :=
  bool_decide (c ∈ [9; 10; 11; 12; 13; 32; 160; 5760; 8232; 8233; 8239; 8287;
                    12288; 65279]%N)
  || ((8192 <=? c)%N && (c <=? 8202)%N).

Fixpoint replace_runs (in_run : bool) (s : JsString) : JsString :=
  match s with
  | [] => []
  | c :: rest =>
      if is_whitespace c then
        (if in_run then replace_runs true rest
         else 95%N :: replace_runs true rest)
      else c :: replace_runs false rest
  end.

Definition replace_whitespace (s : JsString) : JsString := replace_runs false s.

(** [`${mindmap.title.replace(/\s+/g, '_')}_mindmap.svg`] *)
Definition download_name (mindmap : Mindmap) : JsString :=
  replace_whitespace (title mindmap) ++ lit "_mindmap.svg".

(** A double-quoted attribute value inside markup. *)
Definition quoted (s : string) : JsString := [34%N] ++ lit s ++ [34%N].

(** The markup the [catch] handler assigns to [element.innerHTML]: the
    template literal with [error.message] spliced in as it is. *)
Definition error_panel (error : JsError) : JsString :=
  lit "
                  <div class="
  ++ quoted "p-4 bg-red-50 dark:bg-red-900/20 rounded-lg border border-red-200 dark:border-red-800"
  ++ lit ">
                    <h3 class="
  ++ quoted "text-red-600 dark:text-red-400 font-medium"
  ++ lit ">Rendering Error</h3>
                    <pre class="
  ++ quoted "mt-2 text-sm text-red-800 dark:text-red-300 overflow-auto"
  ++ lit ">"
  ++ message error
  ++ lit "</pre>
                  </div>".

(* ===================================================================== *)
(** ** [MindmapViewer]: what it renders *)
(* ===================================================================== *)

(** What the component gets from outside its own source text. *)
Record Host : Type := mkHost {
  (** the nodes [<NeonBorder />] renders (imported component) *)
  NeonBorder : list Node;
  (** the nodes an assignment to [innerHTML] creates from markup *)
  parseHTML : JsString -> list Node;
  (** [new XMLSerializer().serializeToString] *)
  serializeToString : Node -> JsString;
  (** the elements of the page above the component's root, nearest first *)
  ancestors : list ElemData
}.

(** *** The error panel as the HTML parser sees it

    The [catch] handler splices [error.message] into markup without
    escaping it.  What the element then holds is up to the HTML parser;
    the following says what every HTML parser makes of the panel when the
    message is text that HTML reads as it stands. *)








(** The loading placeholder inside every [.mindmap-diagram] element. *)
Definition spinner : list Node :=
  [ el "div" "flex justify-center items-center h-full"
      [ el "div" "animate-spin rounded-full h-10 w-10 border-t-2 border-b-2 border-purple-600" [] ] ].

(** An inline icon, [<svg className=...><path .../></svg>]
    (presentation attributes are not represented). *)
Definition icon (cls : string) : Node := el "svg" cls [ el "path" EmptyString [] ].

(** The branch taken when [!mindmaps || mindmaps.length === 0]. *)
Definition no_mindmaps : Node :=
  el "div" "text-center py-12 bg-white dark:bg-black border border-black/10 dark:border-white/20 rounded-3xl"
    [ el "p" "text-gray-600 dark:text-gray-400"
        [ Text (Str (lit "No mindmaps available")) ] ].

(** [{processingTime && (...)}]: nothing for [undefined], the number
    itself for [0] and [NaN], the line otherwise. *)
Definition processing_line (processingTime : option float) : list Node :=
  match processingTime with
  | None => []
  | Some t =>
      if Number.truthy t then
        [ el "div" "text-center mb-6"
            [ el "p" "text-sm text-gray-600 dark:text-gray-400"
                [ Text (Str (lit "Generated in ")); Text (Fixed2 t);
                  Text (Str (lit " seconds")) ] ] ]
      else [ Text (Num (Number.round t)) ]
  end.

(** The [.mindmap-diagram] element of a card, holding [content]. *)
Definition diagram_data : ElemData :=
  mkElem "div" None "mindmap-diagram bg-white/50 dark:bg-black/50 rounded-xl p-2"
    [("height", Css "400px"); ("overflow", Css "auto")] [].

Definition diagram_element (content : list Node) : Node :=
  Elem diagram_data content.

Section View.

Variable host : Host.

(** One element of [mindmaps.map((mindmap, index) => ...)].  [content]
    is what the [.mindmap-diagram] element currently holds: React puts
    the spinner there and never touches it again, the render callbacks
    overwrite it through [innerHTML]. *)
Definition card (zoomStates : ZoomStates) (content : list Node)
    (index : nat) (mindmap : Mindmap) : Node :=
  el "div" "relative bg-white dark:bg-black border border-black/10 dark:border-white/20 rounded-3xl p-6 shadow-lg"
    (NeonBorder host ++
     [ el "h3" "text-2xl font-bold text-black dark:text-white mb-6"
         [ Text (Str (title mindmap)) ];
       el "div" "flex justify-end gap-2 mb-4"
         [ el "button" "px-4 py-2 text-sm font-medium text-white bg-gradient-to-r from-purple-600 to-indigo-600 rounded-lg hover:opacity-90 transition-opacity flex items-center gap-2"
             [ icon "h-4 w-4"; Text (Str (lit "Download SVG")) ];
           el "div" "flex items-center gap-2 bg-white/50 dark:bg-black/50 rounded-lg px-3"
             [ el "button" "text-purple-600 hover:text-purple-700 dark:text-purple-400 dark:hover:text-purple-300"
                 [ icon "h-5 w-5" ];
               el "span" "text-sm text-gray-600 dark:text-gray-400"
                 [ Text (Num (percentage zoomStates index)); Text (Str (lit "%")) ];
               el "button" "text-purple-600 hover:text-purple-700 dark:text-purple-400 dark:hover:text-purple-300"
                 [ icon "h-5 w-5" ] ] ];
       diagram_element content ]).

(** The call-to-action below the cards. *)
Definition start_study_streak : Node :=
  el "div" "flex justify-center mt-8"
    [ el "button" "group relative inline-flex items-center justify-center px-8 py-3 font-medium text-white bg-gradient-to-r from-purple-600 to-indigo-600 rounded-full overflow-hidden transform transition-all duration-200 ease-in-out hover:scale-105 hover:shadow-lg"
        [ el "span" "absolute inset-0 w-full h-full bg-gradient-to-r from-indigo-600 to-purple-600 opacity-0 group-hover:opacity-100 transition-opacity duration-200 ease-in-out" [];
          el "span" "relative flex items-center"
            [ icon "h-5 w-5 mr-2"; Text (Str (lit "Start Study Streak")) ] ] ].

(** The document subtree of the component: the JSX of the source, with
    the [.mindmap-diagram] element of card [index] holding
    [diagrams !! index] (the spinner when there is no such entry). *)
Definition view (props : MindmapViewerProps) (zoomStates : ZoomStates)
    (diagrams : list (list Node)) : Node :=
  match mindmaps props with
  | None | Some [] => no_mindmaps
  | Some ms =>
      el "div" "space-y-8"
        (processing_line (processingTime props)
         ++ imap (fun index mindmap =>
                    card zoomStates (default spinner (diagrams !! index)) index mindmap)
                 ms
         ++ (if (0 <? length ms)%nat then [ start_study_streak ] else []))
  end.

(** What the function component returns for the given state. *)
Definition render (props : MindmapViewerProps) (zoomStates : ZoomStates) : Node :=
  view props zoomStates [].

(** [containerRef.current]: the root [div] of the main branch carries the
    ref; the placeholder branch attaches it to nothing. *)
Definition containerRef (props : MindmapViewerProps) (tree : Node) : option Node :=
  match mindmaps props with
  | None | Some [] => None
  | Some _ => Some tree
  end.

End View.

(* ===================================================================== *)
(** ** [MindmapViewer]: the effect, its timers and its callbacks *)
(* ===================================================================== *)

(** What a statement sequence leaves behind: the new state, and the
    exception when it was cut short by one. *)
Inductive Completion (S : Type) : Type :=
| Normal (s : S)
| Throws (e : JsError) (s : S).
Arguments Normal {S} s.
Arguments Throws {S} e s.

(** [try { body } catch (e) { handler }] *)
Definition try_catch {S : Type} (body : S -> Completion S)
    (handler : JsError -> S -> Completion S) (s : S) : Completion S :=
  match body s with
  | Normal s' => Normal s'
  | Throws e s' => handler e s'
  end.

(** [promise.then(onFulfilled).catch(onRejected)], run when [promise]
    settles.  [Throws] is a rejection nobody handles. *)
Definition then_catch {A S : Type} (promise : Settled A)
    (onFulfilled : A -> S -> Completion S)
    (onRejected : JsError -> S -> Completion S) (s : S) : Completion S :=
  match promise with
  | Resolved value => try_catch (onFulfilled value) onRejected s
  | Rejected reason => onRejected reason s
  end.

(** The variables a callback created by the effect closes over.  The
    NodeList entry [element] is identified by its position, which is
    [index]. *)
Record Closure : Type := mkClosure {
  index : nat;
  closure_mindmaps : list Mindmap;
  closure_zoomStates : ZoomStates
}.

Record Timer : Type := mkTimer {
  delay : Z;
  callback : Closure
}.

(** [setTimeout]: timers registered at the same instant run by
    increasing delay, and in registration order when the delays are equal.
    (The delay is used as passed; the browser's conversion to a 32-bit
    integer only matters beyond seven million entries.) *)
Fixpoint setTimeout (t : Timer) (queue : list Timer) : list Timer :=
  match queue with
  | [] => [t]
  | u :: rest =>
      if (delay t <? delay u)%Z then t :: queue else u :: setTimeout t rest
  end.

(** The result of [mermaid.render]. *)
Record RenderResult : Type := mkRenderResult {
  svg : JsString
}.

(** The component instance together with the browser state its callbacks
    act on. *)
Record Component : Type := mkComponent {
  props : MindmapViewerProps;
  zoomStates : ZoomStates;
  (** children of the [.mindmap-diagram] elements, in document order *)
  diagrams : list (list Node);
  (** pending [setTimeout] callbacks, next to run first *)
  timers : list Timer;
  (** promises returned by [mermaid.render] that have not settled *)
  rendering : list Closure;
  (** the [mermaid.render(id, text)] calls made so far *)
  render_calls : list (JsString * JsString);
  console : list LogEntry;
  (** exceptions and rejections that left the component's code *)
  uncaught : list JsError;
  (** React has taken the component off the page: an error thrown while
      it rendered or ran an effect was caught by nothing *)
  unmounted : bool
}.

Definition set_diagram (i : nat) (content : list Node) (c : Component) : Component :=
  mkComponent (props c) (zoomStates c) (<[i := content]> (diagrams c)) (timers c)
    (rendering c) (render_calls c) (console c) (uncaught c) (unmounted c).

Definition console_error (label : string) (e : JsError) (c : Component) : Component :=
  mkComponent (props c) (zoomStates c) (diagrams c) (timers c)
    (rendering c) (render_calls c) (console c ++ [mkLog label e]) (uncaught c)
    (unmounted c).

Definition setZoomStates (update : ZoomStates -> ZoomStates) (c : Component) : Component :=
  mkComponent (props c) (update (zoomStates c)) (diagrams c) (timers c)
    (rendering c) (render_calls c) (console c) (uncaught c) (unmounted c).

Definition set_timers (queue : list Timer) (c : Component) : Component :=
  mkComponent (props c) (zoomStates c) (diagrams c) queue
    (rendering c) (render_calls c) (console c) (uncaught c) (unmounted c).

Definition escape (e : JsError) (c : Component) : Component :=
  mkComponent (props c) (zoomStates c) (diagrams c) (timers c)
    (rendering c) (render_calls c) (console c) (uncaught c ++ [e]) (unmounted c).

(** An error thrown by the effect: no error boundary is part of the
    component, so the error is uncaught and React unmounts the tree the
    component is in. *)
Definition unmount (e : JsError) (c : Component) : Component :=
  mkComponent (props c) (zoomStates c) (diagrams c) (timers c)
    (rendering c) (render_calls c) (console c) (uncaught c ++ [e]) true.

(** Collect what a completion leaves: an exception nobody caught is
    recorded in [uncaught]. *)
Definition settle (r : Completion Component) : Component :=
  match r with
  | Normal c => c
  | Throws e c => escape e c
  end.

Section Effect.

Variable host : Host.

(** The post-processing of the rendered [svg] element. *)
Definition style_svg (zoomStates : ZoomStates) (index : nat) (e : ElemData) : ElemData :=
  set_style "transition" (Css "transform 0.3s ease")
    (set_style "transformOrigin" (Css "center")
       (set_style "transform" (svg_transform zoomStates index)
          (set_style "borderRadius" (Css "0.5rem")
             (set_style "maxWidth" (Css "100%")
                (set_style "width" (Css "100%") e))))).

Definition style_text (e : ElemData) : ElemData :=
  set_style "fontSize" (Css "14px")
    (set_style "fontFamily"
       (Css "ui-sans-serif, system-ui, -apple-system, BlinkMacSystemFont, sans-serif") e).

(** [node.querySelector('rect, circle, ellipse')] and the two
    [setAttribute] calls on it, if there is one. *)
Definition round_corners (node : Node) : Node :=
  match node with
  | Text _ => node
  | Elem e children =>
      let shape := Group [ByTag "rect"; ByTag "circle"; ByTag "ellipse"] in
      match update_first_in (matches shape [])
              (map_data (fun r => set_attribute "ry" "8" (set_attribute "rx" "8" r)))
              children with
      | Some children' => Elem e children'
      | None => node
      end
  end.

Definition decorate (zoomStates : ZoomStates) (index : nat) (svg : Node) : Node :=
  let styled := map_data (style_svg zoomStates index) svg in
  let texts := update_descendants (matches (Group [ByTag "text"]) [])
                 (map_data style_text) styled in
  update_descendants (matches (Group [ByClass "node"]) []) round_corners texts.

(** The [.then] handler: [element.innerHTML = result.svg], then the
    styling of [element.querySelector('svg')] when it is not [null]. *)
Definition onRendered (k : Closure) (result : RenderResult) (c : Component)
  : Completion Component :=
  let content := parseHTML host (svg result) in
  let content' :=
    default content
      (update_first_in (matches (Group [ByTag "svg"]) [])
         (decorate (closure_zoomStates k) (index k)) content) in
  Normal (set_diagram (index k) content' c).

(** The [.catch] handler. *)
Definition onRenderError (k : Closure) (error : JsError) (c : Component)
  : Completion Component :=
  let c := console_error "Mermaid rendering error:" error c in
  Normal (set_diagram (index k) (parseHTML host (error_panel error)) c).

(** The body of the [setTimeout] callback.  [thrown] tells whether
    [mermaid.render] threw instead of returning a promise. *)
Definition timer_body (k : Closure) (thrown : option JsError) (c : Component)
  : Completion Component :=
  match closure_mindmaps k !! index k with
  | None =>
      (* [mindmaps[index]] is [undefined]: reading [.code] throws *)
      Throws (mkError "TypeError"
                (lit "Cannot read properties of undefined (reading 'code')")) c
  | Some mindmap =>
      let c := mkComponent (props c) (zoomStates c) (diagrams c) (timers c)
                 (rendering c) (render_calls c ++ [(key (index k), code mindmap)])
                 (console c) (uncaught c) (unmounted c) in
      match thrown with
      | Some e => Throws e c
      | None =>
          Normal (mkComponent (props c) (zoomStates c) (diagrams c) (timers c)
                    (rendering c ++ [k]) (render_calls c) (console c) (uncaught c)
                    (unmounted c))
      end
  end.

Definition timer_callback (k : Closure) (thrown : option JsError)
  : Component -> Completion Component :=
  try_catch (timer_body k thrown)
    (fun e c => Normal (console_error "Mermaid general error:" e c)).

(** The body of [useEffect], run after the first render.  The call of
    [mermaid.initialize] only configures the library.  The result is the
    timer queue, or the exception that reading [mindmaps.length] raises
    when the prop is absent. *)
Definition effect (props : MindmapViewerProps) (zoomStates : ZoomStates)
    (container : option Node) : JsError + list Timer :=
  match mindmaps props with
  | None =>
      inl (mkError "TypeError"
             (lit "Cannot read properties of undefined (reading 'length')"))
  | Some ms =>
      match (0 <? length ms)%nat, container with
      | true, Some root =>
          let mindmapElements :=
            querySelectorAll (Group [ByClass "mindmap-diagram"]) (ancestors host) root in
          inr (fold_left
                 (fun queue t => setTimeout t queue)
                 (imap (fun index _ =>
                          mkTimer (Z.of_nat index * 300) (mkClosure index ms zoomStates))
                       mindmapElements)
                 [])
      | _, _ => inr []
      end
  end.

(** Mounting: the first render with the initial state [{}], then the
    effect.  When the effect throws, React finds no error boundary in
    the component and unmounts it. *)
Definition mount (props : MindmapViewerProps) : Component :=
  let tree := render host props ∅ in
  let container := containerRef props tree in
  let elements :=
    match container with
    | Some root =>
        querySelectorAll (Group [ByClass "mindmap-diagram"]) (ancestors host) root
    | None => []
    end in
  let c := mkComponent props ∅ (map children_of elements) [] [] [] [] [] false in
  match effect props ∅ container with
  | inl e => unmount e c
  | inr queue => set_timers queue c
  end.

(** What can happen to a mounted component while it keeps the props it
    was mounted with: a timer fires, a render call settles, a zoom button
    is clicked.  (A parent that passes another [mindmaps] array makes
    React run the effect again, with the zoom state of that render; the
    events below follow the one run of the effect that mounting
    starts.) *)
Inductive Event : Type :=
| TimerFires (thrown : option JsError)
| RenderSettles (n : nat) (outcome : Settled RenderResult)
| ClickZoomOut (index : nat)
| ClickZoomIn (index : nat).

(** The zoom buttons of card [index] exist when the main branch is
    rendered and [index] is a position of [mindmaps]. *)
Definition has_card (c : Component) (index : nat) : bool :=
  bool_decide (index < length (default [] (mindmaps (props c))))%nat.

(** One turn of the event loop.  A click handler sees the state of the
    latest render, which is the state it updates. *)
Definition step (c : Component) (ev : Event) : Component :=
  match ev with
  | TimerFires thrown =>
      match timers c with
      | [] => c
      | t :: rest =>
          settle (timer_callback (callback t) thrown (set_timers rest c))
      end
  | RenderSettles n outcome =>
      match rendering c !! n with
      | None => c
      | Some k =>
          let c := mkComponent (props c) (zoomStates c) (diagrams c) (timers c)
                     (delete n (rendering c)) (render_calls c) (console c)
                     (uncaught c) (unmounted c) in
          settle (then_catch outcome (onRendered k) (onRenderError k) c)
      end
  | ClickZoomOut index =>
      if has_card c index
      then setZoomStates (zoomOutClick (zoomStates c) index) c else c
  | ClickZoomIn index =>
      if has_card c index
      then setZoomStates (zoomInClick (zoomStates c) index) c else c
  end.

Definition run (c : Component) (events : list Event) : Component :=
  fold_left step events c.

(** How many of the events are timers firing. *)
Fixpoint timers_fired (events : list Event) : nat :=
  match events with
  | [] => 0
  | TimerFires _ :: rest => S (timers_fired rest)
  | _ :: rest => timers_fired rest
  end.

(** The document subtree of a mounted component. *)
Definition document_of (c : Component) : Node :=
  view host (props c) (zoomStates c) (diagrams c).


(** The [transform] style of the [svg] element inside diagram [index]. *)
Definition applied_transform (c : Component) (index : nat) : option StyleValue :=
  content ← diagrams c !! index;
  found ← head (flat_map (select (Group [ByTag "svg"]) []) content);
  match found with
  | Elem e _ => get_style "transform" e
  | Text _ => None
  end.

End Effect.

(* ===================================================================== *)
(** ** [MindmapViewer]: the download button *)
(* ===================================================================== *)

Record Blob : Type := mkBlob {
  blob_parts : JsString;
  blob_type : string
}.

(** A download the browser started: the suggested file name and the
    resource behind the link ([None] when the URL names nothing). *)
Record Download : Type := mkDownload {
  file_name : option JsString;
  payload : option Blob
}.

(** The part of the page outside the component that the handler acts on.
    Nodes and object URLs are told apart by a number. *)
Record Browser : Type := mkBrowser {
  (** the children of [document.body], in order *)
  body : list nat;
  (** the object URLs that have been created and not revoked *)
  object_urls : gmap nat Blob;
  (** the downloads started so far *)
  downloads : list Download
}.

(** The [<a>] element the handler creates. *)
Record Anchor : Type := mkAnchor {
  anchor_node : nat;
  href : option nat;
  download : option JsString
}.

(** A computation on the browser state that may throw. *)
Definition Js (A : Type) : Type := Browser -> (JsError + A) * Browser.

#[global] Instance Js_ret : MRet Js := fun A (a : A) w => (inr a, w).

#[global] Instance Js_bind : MBind Js := fun A B (k : A -> Js B) (m : Js A) w =>
  match m w with
  | (inl e, w') => (inl e, w')
  | (inr a, w') => k a w'
  end.

(** [URL.createObjectURL(blob)]: a URL no live object URL is equal to. *)
Definition createObjectURL (blob : Blob) : Js nat := fun w =>
  let url := fresh (dom (object_urls w)) in
  (inr url, mkBrowser (body w) (<[url := blob]> (object_urls w)) (downloads w)).

(** [URL.revokeObjectURL(url)] *)
Definition revokeObjectURL (url : nat) : Js unit := fun w =>
  (inr (), mkBrowser (body w) (delete url (object_urls w)) (downloads w)).

(** [document.createElement('a')]: a new node, attached nowhere. *)
Definition createElement_a : Js Anchor := fun w =>
  (inr (mkAnchor (fresh (body w)) None None), w).

(** [document.body.appendChild(link)] *)
Definition appendChild (link : Anchor) : Js unit := fun w =>
  (inr (), mkBrowser (filter (fun n => n ≠ anchor_node link) (body w) ++ [anchor_node link])
             (object_urls w) (downloads w)).

(** [document.body.removeChild(link)]: a [NotFoundError] when the node is
    not a child of the body. *)
Definition removeChild (link : Anchor) : Js unit := fun w =>
  if bool_decide (anchor_node link ∈ body w) then
    (inr (), mkBrowser (filter (fun n => n ≠ anchor_node link) (body w))
               (object_urls w) (downloads w))
  else
    (inl (mkError "NotFoundError"
            (lit "The node to be removed is not a child of this node.")), w).

(** [link.click()]: following a link that has an [href] and a
    [download] attribute starts a download of what the URL names. *)
Definition click (link : Anchor) : Js unit := fun w =>
  match href link, download link with
  | Some url, Some name =>
      (inr (), mkBrowser (body w) (object_urls w)
                 (downloads w ++ [mkDownload (Some name) (object_urls w !! url)]))
  | _, _ => (inr (), w)
  end.

Section Download.

Variable host : Host.

(** The [onClick] handler of the download button of card [index].
    [container] is [containerRef.current]. *)
Definition handleDownload (container : option Node) (index : nat)
    (mindmap : Mindmap) : Js unit :=
  let svg :=
    root ← container;
    querySelector (Within (ById (key index)) (ByTag "svg")) (ancestors host) root in
  match svg with
  | Some svg =>
      let svgData := serializeToString host svg in
      let blob := mkBlob svgData "image/svg+xml" in
      url ← createObjectURL blob;
      link ← createElement_a;
      let link := mkAnchor (anchor_node link) (Some url) (download link) in
      let link := mkAnchor (anchor_node link) (href link) (Some (download_name mindmap)) in
      _ ← appendChild link;
      _ ← click link;
      _ ← removeChild link;
      revokeObjectURL url
  | None => mret ()
  end.

(** A click on the download button of card [index] of a mounted
    component (there is no such button unless the card exists). *)
Definition clickDownload (c : Component) (index : nat) : Js unit :=
  match default [] (mindmaps (props c)) !! index with
  | Some mindmap =>
      handleDownload (containerRef (props c) (document_of host c)) index mindmap
  | None => mret ()
  end.

End Download.

(* ===================================================================== *)
(** ** The zoom levels the buttons can reach *)
(* ===================================================================== *)

(** The two updates of the stored scale, as the click handlers compute
    them from the current scale. *)
Definition zoomed_out (x : float) : float := Number.max 0.5%float (x - 0.1)%float.
Definition zoomed_in (x : float) : float := Number.min 2%float (x + 0.1)%float.

Definition known (seen : list float) (x : float) : bool :=
  existsb (PrimFloat.eqb x) seen.

Definition add_new (seen : list float) (x : float) : list float :=
  if known seen x then seen else seen ++ [x].

(** Breadth-first closure of [frontier] under the two updates. *)
Fixpoint explore (fuel : nat) (seen frontier : list float) : list float :=
  match fuel with
  | O => seen
  | S fuel' =>
      let successors := flat_map (fun x => [zoomed_out x; zoomed_in x]) frontier in
      let seen' := fold_left add_new successors seen in
      match drop (length seen) seen' with
      | [] => seen
      | fresh_values => explore fuel' seen' fresh_values
      end
  end.

(** Every double that repeated clicks produce from the initial scale 1;
    binary rounding makes them 45 values rather than 16. *)
Definition scale_values : list float :=
  Eval vm_compute in explore 64 [1%float] [1%float].

(** A number that is used where no number is ever converted to text. *)
Definition no_numbers : float -> JsString := fun _ => [].

(* ===================================================================== *)
(** ** Invariants used in the statements *)
(* ===================================================================== *)

(** What holds of every reachable zoom level [x]: both updates stay among
    the reachable levels, [x] is a truthy number between 0.5 and 2, and
    the percentage shown moves by ten points, between 50 and 200. *)
Definition level_ok (x : float) : Prop :=
  In (zoomed_out x) scale_values
  /\ In (zoomed_in x) scale_values
  /\ Number.truthy x = true
  /\ PrimFloat.leb 0.5%float x = true
  /\ PrimFloat.leb x 2%float = true
  /\ exists p : Z,
       Number.round (x * 100)%float = Number.Int p
       /\ Number.round (zoomed_out x * 100)%float = Number.Int (Z.max 50 (p - 10))
       /\ Number.round (zoomed_in x * 100)%float = Number.Int (Z.min 200 (p + 10)).

(** Every stored scale is one of the reachable levels. *)
Definition levels_ok (zs : ZoomStates) : Prop :=
  forall k z, zs !! k = Some z -> In (scale z) scale_values.

(** The elements of class [mindmap-diagram] that [<NeonBorder />]
    renders; there are none unless that component uses the class too. *)
Definition NeonBorder_diagrams (host : Host) : list Node :=
  flat_map (select (Group [ByClass "mindmap-diagram"]) []) (NeonBorder host).

(** [<NeonBorder />] renders no element of class [mindmap-diagram]. *)
Definition NeonBorder_plain (host : Host) : Prop :=
  NeonBorder_diagrams host = [].

(** The length of the NodeList the effect iterates over on mount. *)
Definition elements_on_mount (host : Host) (ms : list Mindmap) : nat :=
  length ms * S (length (NeonBorder_diagrams host)).

(** The timer the effect creates for position [i]. *)
Definition timer_for (ms : list Mindmap) (zs : ZoomStates) (i : nat) : Timer :=
  mkTimer (Z.of_nat i * 300) (mkClosure i ms zs).

(** The render calls the specification expects, in list order. *)
Definition expected_calls (ms : list Mindmap) : list (JsString * JsString) :=
  imap (fun i m => (key i, code m)) ms.

(** What the component has done after [fired] of its [total] timers: the
    timers for the remaining positions are queued, and the calls for the
    first [fired] positions have been made (positions beyond the list
    make no call). *)
Definition progress (ms : list Mindmap) (total fired : nat) (c : Component) : Prop :=
  fired <= total
  /\ timers c = map (timer_for ms ∅) (seq fired (total - fired))
  /\ render_calls c = take fired (expected_calls ms).


(** Every callback still to run writes into an existing diagram
    element. *)
Definition callbacks_in_range (c : Component) : Prop :=
  Forall (fun t => index (callback t) < length (diagrams c)) (timers c)
  /\ Forall (fun k => index k < length (diagrams c)) (rendering c).

(** The callbacks of the effect all carry the zoom state of the first
    render: the effect depends on [mindmaps] only and is not run again
    when [zoomStates] changes. *)
Definition closures_from_mount (c : Component) : Prop :=
  Forall (fun t => closure_zoomStates (callback t) = ∅) (timers c)
  /\ Forall (fun k => closure_zoomStates k = ∅) (rendering c).

(* ===================================================================== *)
(** ** [MindmapViewer]: the call-to-action *)
(* ===================================================================== *)

(** The session of the tab: [sessionStorage] and the routes [navigate]
    was called with, oldest first. *)
Record Session : Type := mkSession {
  storage : gmap JsString JsString;
  visited : list JsString
}.

(** [sessionStorage.setItem(k, v)]: the write happens unless the storage
    it would leave exceeds the quota, which raises a
    [QuotaExceededError].  [fits] is the browser's quota check. *)
Definition setItem (fits : gmap JsString JsString -> bool) (k v : JsString)
    (s : Session) : Completion Session :=
  let written := <[k := v]> (storage s) in
  if fits written then Normal (mkSession written (visited s))
  else Throws (mkError "QuotaExceededError"
                 (lit "Setting the value of '" ++ k ++ lit "' exceeded the quota.")) s.

(** [navigate(to)] *)
Definition navigate (to : JsString) (s : Session) : Completion Session :=
  Normal (mkSession (storage s) (visited s ++ [to])).

(** [handleStartStudyStreak].  [stringify] is [JSON.stringify] on the
    list of entries. *)
Definition handleStartStudyStreak (stringify : list Mindmap -> JsString)
    (fits : gmap JsString JsString -> bool) (mindmaps : list Mindmap)
    (s : Session) : Completion Session :=
  match setItem fits (lit "current_mindmaps") (stringify mindmaps) s with
  | Normal s' => navigate (lit "/study-streaks") s'
  | Throws e s' => Throws e s'
  end.

(* ===================================================================== *)
(** ** Views of a tree used in the statements *)
(* ===================================================================== *)

(** The tree with [k] applied to the data of every element. *)
Fixpoint erase (k : ElemData -> ElemData) (n : Node) : Node :=
  match n with
  | Text _ => n
  | Elem e children => Elem (k e) (map (erase k) children)
  end.

(** What is left of an element when its inline style and its attributes
    are forgotten: tag, id and classes. *)
Definition bare (e : ElemData) : ElemData :=
  mkElem (tag e) (elem_id e) (className e) [] [].

(** What is left when only the attributes are forgotten. *)
Definition unattributed (e : ElemData) : ElemData :=
  mkElem (tag e) (elem_id e) (className e) (style e) [].

(** The two style properties the render callback sets on every [text]
    element. *)
Definition has_text_font (n : Node) : Prop :=
  match n with
  | Elem e _ =>
      get_style "fontSize" e = Some (Css "14px")
      /\ get_style "fontFamily" e
         = Some (Css "ui-sans-serif, system-ui, -apple-system, BlinkMacSystemFont, sans-serif")
  | Text _ => False
  end.



(** Every entry of a zoom state sits under a key [mindmap-<i>] and names
    that key in its [mindmapId]. *)
Definition entries_keyed (zs : ZoomStates) : Prop :=
  forall k z, zs !! k = Some z -> mindmapId z = k /\ exists i : nat, k = key i.

(** The data of an element node. *)
Definition data_of (n : Node) : option ElemData :=
  match n with
  | Elem e _ => Some e
  | Text _ => None
  end.

(** The indices the pending callbacks of a component will write to. *)
Definition pending_indices (c : Component) : list nat :=
  map (fun t => index (callback t)) (timers c) ++ map index (rendering c).

(* ===================================================================== *)
(** ** Sample inputs *)
(* ===================================================================== *)

(** A 400 response with the body [{ error: 'bad file' }]. *)
Definition bad_file_response : Api.Response :=
  Api.mkResponse 400
    (Resolved (Api.JObject [(lit "error", Api.JString (lit "bad file"))])).

(** A 400 response whose body is an HTML page: [response.json()] rejects
    with the parser's error. *)
Definition html_error_response : Api.Response :=
  Api.mkResponse 400
    (Rejected (mkError "SyntaxError"
                 (lit "Unexpected token '<', ... is not valid JSON"))).

(** A 400 response with the body [null]. *)
Definition null_response : Api.Response :=
  Api.mkResponse 400 (Resolved Api.JNull).

(** A 400 response with the body [{ error: '' }]. *)
Definition empty_error_response : Api.Response :=
  Api.mkResponse 400 (Resolved (Api.JObject [(lit "error", Api.JString [])])).

(** The markup of a rendered diagram as mermaid returns it for the id
    [mindmap-0]: the [svg] root carries the id it was asked for. *)
Definition sample_markup : JsString :=
  lit "<svg id=" ++ quoted "mindmap-0" ++ lit "><g class=" ++ quoted "node"
  ++ lit "><rect></rect><text>Root</text></g></svg>".

Definition sample_svg : Node :=
  Elem (mkElem "svg" (Some (lit "mindmap-0")) EmptyString [] [])
    [ el "g" "node"
        [ el "rect" EmptyString [];
          el "text" EmptyString [ Text (Str (lit "Root")) ] ] ].

(** A page to run the component in: [<NeonBorder />] renders one
    decorative [div], the component sits below [div#root] and [body].
    The parser is given on the one piece of markup that is used (other
    markup is kept as text), the serializer is a stand-in. *)
Definition sample_host : Host :=
  mkHost
    [ el "div" "absolute inset-0 rounded-3xl pointer-events-none" [] ]
    (fun markup =>
       if decide (markup = sample_markup) then [ sample_svg ]
       else [ Text (Str markup) ])
    (fun _ => lit "<svg>...</svg>")
    [ mkElem "div" (Some (lit "root")) EmptyString [] [];
      mkElem "body" None EmptyString [] [];
      mkElem "html" None EmptyString [] [] ].





Definition sample_mindmap : Mindmap :=
  mkMindmap (lit "Cell  biology notes") (lit "mindmap
  root((Cell))").

(* ===================================================================== *)
(** * Properties *)
(* ===================================================================== *)

(** ** Strings and keys *)

Lemma lit_inj (s t : string) : lit s = lit t -> s = t.
Proof.
  unfold lit. revert t.
  induction s as [|a s IH]; intros [|b t]; simpl; intros H; try done.
  injection H as Hab Hst.
  f_equal; [ | by apply IH ].
  rewrite <- (ascii_N_embedding a), <- (ascii_N_embedding b). by rewrite Hab.
Qed.

Lemma key_inj (i j : nat) : key i = key j -> i = j.
Proof.
  unfold key, decimal. intros H.
  apply app_inv_head in H. apply lit_inj in H.
  by apply (inj pretty) in H.
Qed.

Lemma includes_middle (pre m post : JsString) : includes (pre ++ m ++ post) m.
Proof. by exists pre, post. Qed.

(** ** The upload client *)

(** A success response settles the promise the way [response.json()]
    settles; only a rejection is logged. *)
Lemma uploadPDF_success (number_to_string : float -> JsString) (response : Api.Response) :
  Api.ok response = true ->
  Api.uploadPDF number_to_string (Resolved response) =
    match Api.json response with
    | Resolved data => ([], Resolved data)
    | Rejected e => ([mkLog "Error uploading PDF:" e], Rejected e)
    end.
Proof.
  intros Hok. unfold Api.uploadPDF, Api.try_block. rewrite Hok. simpl.
  by destruct (Api.json response).
Qed.

(** When [response.json()] rejects on a non-success response, the
    function rejects with that very error: nothing replaces its message. *)
Lemma uploadPDF_unparseable (number_to_string : float -> JsString)
    (response : Api.Response) (e : JsError) :
  Api.ok response = false ->
  Api.json response = Rejected e ->
  Api.uploadPDF number_to_string (Resolved response) =
    ([mkLog "Error uploading PDF:" e], Rejected e).
Proof.
  intros Hok Hjson. unfold Api.uploadPDF, Api.try_block.
  by rewrite Hok, Hjson.
Qed.

(** C1, as the code has it: on a non-success response the promise rejects
    (after logging the error).  When the body parses to an object whose
    [error] field is a non-empty string, the message is that string; when
    it parses to a value other than [null] that has no [error] field, or
    whose [error] field is the empty string, the message is
    'Failed to upload file'. *)
Theorem uploadPDF_non_success (number_to_string : float -> JsString)
    (response : Api.Response) :
  Api.ok response = false ->
  exists error : JsError,
    Api.uploadPDF number_to_string (Resolved response) =
      ([mkLog "Error uploading PDF:" error], Rejected error)
    /\ (forall fields s,
          Api.json response = Resolved (Api.JObject fields) ->
          Api.field (lit "error") fields = Some (Api.JString s) ->
          s <> [] ->
          message error = s)
    /\ (forall fields,
          Api.json response = Resolved (Api.JObject fields) ->
          Api.field (lit "error") fields = Some (Api.JString []) ->
          message error = lit "Failed to upload file")
    /\ (forall errorData,
          Api.json response = Resolved errorData ->
          errorData <> Api.JNull ->
          (forall fields, errorData = Api.JObject fields ->
                          Api.field (lit "error") fields = None) ->
          message error = lit "Failed to upload file").
Proof.
  intros Hok. unfold Api.uploadPDF, Api.try_block. rewrite Hok. simpl.
  destruct (Api.json response) as [errorData | e] eqn:Hjson.
  - destruct (Api.get_error errorData) as [type_error | found] eqn:Hget.
    + (* only [null] makes the property access throw *)
      destruct errorData; simpl in Hget; try discriminate.
      eexists. split; [reflexivity|].
      repeat split; intros; try discriminate; congruence.
    + eexists. split; [reflexivity|]. simpl.
      split; [|split].
      * intros fields s [= ->] Hfield Hs. simpl in Hget.
        injection Hget as <-. rewrite Hfield. simpl.
        by rewrite bool_decide_eq_false_2.
      * intros fields [= ->] Hfield. simpl in Hget.
        injection Hget as <-. by rewrite Hfield.
      * intros v [= <-] Hnull Hfields.
        destruct errorData; simpl in Hget; try congruence;
          try (by injection Hget as <-).
        injection Hget as <-. by rewrite (Hfields _ eq_refl).
  - eexists. split; [reflexivity|].
    repeat split; intros; discriminate.
Qed.

Lemma uploadPDF_non_success_witness :
  exists error : JsError,
    Api.uploadPDF no_numbers (Resolved bad_file_response) =
      ([mkLog "Error uploading PDF:" error], Rejected error)
    /\ message error = lit "bad file".
Proof.
  destruct (uploadPDF_non_success no_numbers bad_file_response eq_refl)
    as (error & Hrun & Hstring & _).
  exists error. split; [exact Hrun|].
  apply (Hstring _ _ eq_refl eq_refl). discriminate.
Defined.

(** C1 as stated fails on three inputs.  A 400 response whose body is not
    JSON rejects with the parser's message, not with the fallback; a 400
    response with the body [{ error: '' }], whose [error] field is a
    string, rejects with the fallback, not with that string; and a 400
    response with the body [null], which has no [error] field, rejects
    with the message of the [TypeError], not with the fallback. *)
Lemma uploadPDF_message_counterexample :
  (Api.ok html_error_response = false
   /\ (exists e, Api.json html_error_response = Rejected e)
   /\ exists error,
        snd (Api.uploadPDF no_numbers (Resolved html_error_response)) = Rejected error
        /\ message error <> lit "Failed to upload file")
  /\ (Api.ok empty_error_response = false
      /\ Api.json empty_error_response
           = Resolved (Api.JObject [(lit "error", Api.JString [])])
      /\ exists error,
           snd (Api.uploadPDF no_numbers (Resolved empty_error_response)) = Rejected error
           /\ message error <> [])
  /\ (Api.ok null_response = false
      /\ Api.json null_response = Resolved Api.JNull
      /\ exists error,
           snd (Api.uploadPDF no_numbers (Resolved null_response)) = Rejected error
           /\ message error <> lit "Failed to upload file").
Proof.
  split; [|split].
  - split; [reflexivity|]. split; [by eexists|].
    eexists. split; [reflexivity|]. discriminate.
  - split; [reflexivity|]. split; [reflexivity|].
    eexists. split; [reflexivity|]. discriminate.
  - split; [reflexivity|]. split; [reflexivity|].
    eexists. split; [reflexivity|]. discriminate.
Qed.

(** ** Zoom *)

Lemma one_in_scale_values : In 1%float scale_values.
Proof. left. reflexivity. Qed.

Ltac in_scale_values := vm_compute; repeat first [left; reflexivity | right].

Lemma scale_values_ok : Forall level_ok scale_values.
Proof.
  unfold scale_values.
  repeat (apply Forall_cons; split;
    [ unfold level_ok;
      split; [in_scale_values|];
      split; [in_scale_values|];
      split; [vm_compute; reflexivity|];
      split; [vm_compute; reflexivity|];
      split; [vm_compute; reflexivity|];
      eexists; split; [vm_compute; reflexivity|];
      split; vm_compute; reflexivity
    | ]).
  apply Forall_nil. exact I.
Qed.

Arguments scale_values : simpl never.

Lemma level_ok_of_value (x : float) : In x scale_values -> level_ok x.
Proof. intros Hx. exact (proj1 (List.Forall_forall _ _) scale_values_ok x Hx). Qed.

Lemma levels_ok_empty : levels_ok ∅.
Proof. intros k z H. by rewrite lookup_empty in H. Qed.

Lemma currentScale_absent (zs : ZoomStates) (index : nat) :
  zs !! key index = None -> currentScale zs index = 1%float.
Proof. intros H. unfold currentScale. by rewrite H. Qed.

Lemma currentScale_level (zs : ZoomStates) (index : nat) :
  levels_ok zs -> In (currentScale zs index) scale_values.
Proof.
  intros Hzs. unfold currentScale, Number.or_default.
  destruct (zs !! key index) as [z|] eqn:Hz; cbn [fmap option_fmap option_map].
  - pose proof (level_ok_of_value _ (Hzs _ _ Hz)) as (_ & _ & Htruthy & _).
    rewrite Htruthy. exact (Hzs _ _ Hz).
  - apply one_in_scale_values.
Qed.

Lemma currentScale_stored (zs : ZoomStates) (index : nat) (z : ZoomState) :
  levels_ok zs -> zs !! key index = Some z -> currentScale zs index = scale z.
Proof.
  intros Hzs Hz. unfold currentScale, Number.or_default. rewrite Hz.
  cbn [fmap option_fmap option_map].
  pose proof (level_ok_of_value _ (Hzs _ _ Hz)) as (_ & _ & Htruthy & _).
  by rewrite Htruthy.
Qed.

Lemma zoomOutClick_levels (rendered prev : ZoomStates) (index : nat) :
  levels_ok rendered -> levels_ok prev -> levels_ok (zoomOutClick rendered index prev).
Proof.
  intros Hr Hp k z. unfold zoomOutClick.
  destruct (decide (k = key index)) as [->|Hne].
  - rewrite lookup_insert_eq. intros [= <-]. cbn [scale].
    apply (level_ok_of_value _ (currentScale_level rendered index Hr)).
  - rewrite lookup_insert_ne by done. apply Hp.
Qed.

Lemma zoomInClick_levels (rendered prev : ZoomStates) (index : nat) :
  levels_ok rendered -> levels_ok prev -> levels_ok (zoomInClick rendered index prev).
Proof.
  intros Hr Hp k z. unfold zoomInClick.
  destruct (decide (k = key index)) as [->|Hne].
  - rewrite lookup_insert_eq. intros [= <-]. cbn [scale].
    apply (level_ok_of_value _ (currentScale_level rendered index Hr)).
  - rewrite lookup_insert_ne by done. apply Hp.
Qed.

Section Reachable.

Variable host : Host.

(** Timers and render callbacks never write the zoom state. *)
Lemma timer_zoomStates (c : Component) (thrown : option JsError) :
  zoomStates (step host c (TimerFires thrown)) = zoomStates c.
Proof.
  simpl. destruct (timers c) as [|t rest]; [done|].
  unfold timer_callback, try_catch, timer_body.
  destruct (closure_mindmaps (callback t) !! index (callback t)); [|done].
  by destruct thrown.
Qed.

Lemma settle_zoomStates (c : Component) (n : nat) (outcome : Settled RenderResult) :
  zoomStates (step host c (RenderSettles n outcome)) = zoomStates c.
Proof.
  simpl. destruct (rendering c !! n); [|done]. by destruct outcome.
Qed.

Lemma step_levels (c : Component) (ev : Event) :
  levels_ok (zoomStates c) -> levels_ok (zoomStates (step host c ev)).
Proof.
  intros Hc. destruct ev as [thrown | n outcome | index | index].
  - by rewrite timer_zoomStates.
  - by rewrite settle_zoomStates.
  - simpl. destruct (has_card c index); [|done].
    by apply zoomOutClick_levels.
  - simpl. destruct (has_card c index); [|done].
    by apply zoomInClick_levels.
Qed.

Lemma mount_zoomStates (props : MindmapViewerProps) :
  zoomStates (mount host props) = ∅.
Proof. unfold mount. by destruct (effect _ _ _ _). Qed.

Lemma mount_props (p : MindmapViewerProps) : props (mount host p) = p.
Proof. unfold mount. by destruct (effect _ _ _ _). Qed.

Lemma run_snoc (c : Component) (events : list Event) (ev : Event) :
  run host c (events ++ [ev]) = step host (run host c events) ev.
Proof. unfold run. by rewrite fold_left_app. Qed.

Lemma run_levels (props : MindmapViewerProps) (events : list Event) :
  levels_ok (zoomStates (run host (mount host props) events)).
Proof.
  induction events as [|ev events IH] using rev_ind.
  - simpl. rewrite mount_zoomStates. apply levels_ok_empty.
  - rewrite run_snoc. by apply step_levels.
Qed.

End Reachable.

(** C9.  A diagram without an entry in the zoom state has the effective
    scale 1: the percentage shown is 100, and the transform the render
    callback assigns is scale(1). *)
Theorem unzoomed_diagram_has_scale_one (zoomStates : ZoomStates) (index : nat) :
  zoomStates !! key index = None ->
  currentScale zoomStates index = 1%float
  /\ percentage zoomStates index = Number.Int 100
  /\ svg_transform zoomStates index = CssScale 1%float.
Proof.
  intros Habsent. unfold percentage, svg_transform.
  rewrite (currentScale_absent _ _ Habsent).
  split; [reflexivity|]. split; [|reflexivity].
  vm_compute. reflexivity.
Qed.

Lemma unzoomed_diagram_has_scale_one_witness :
  (∅ : ZoomStates) !! key 0 = None
  /\ percentage ∅ 0 = Number.Int 100
  /\ svg_transform ∅ 0 = CssScale 1%float.
Proof.
  split; [reflexivity|].
  apply (unzoomed_diagram_has_scale_one ∅ 0). reflexivity.
Defined.

(** C10.  A click on a zoom button of diagram [i] leaves the stored
    entry of every other diagram [j] as it was. *)
Theorem zoom_click_keeps_other_diagrams (zoomStates prev : ZoomStates) (i j : nat) :
  i <> j ->
  zoomOutClick zoomStates i prev !! key j = prev !! key j
  /\ zoomInClick zoomStates i prev !! key j = prev !! key j.
Proof.
  intros Hij.
  assert (key i <> key j) as Hkeys by (intros H; apply Hij, key_inj, H).
  unfold zoomOutClick, zoomInClick.
  split; by rewrite lookup_insert_ne.
Qed.

Lemma zoom_click_keeps_other_diagrams_witness :
  let zs : ZoomStates := <[key 1 := mkZoomState 1.5%float (key 1)]> ∅ in
  0%nat <> 1%nat
  /\ zoomOutClick zs 0 zs !! key 1 = Some (mkZoomState 1.5%float (key 1))
  /\ zoomInClick zs 0 zs !! key 1 = Some (mkZoomState 1.5%float (key 1)).
Proof.
  intros zs. split; [lia|].
  destruct (zoom_click_keeps_other_diagrams zs zs 0 1 ltac:(lia)) as [Hout Hin].
  rewrite Hout, Hin. split; reflexivity.
Defined.

(** C3.  Whatever happens to a mounted component, every stored scale lies
    between 0.5 and 2.  A click on a zoom button of an existing card
    stores the current scale of that diagram minus or plus 0.1 (in double
    arithmetic), clamped to that interval: the current scale is the stored
    one when there is one, and the percentage shown moves by ten points
    unless the clamp cuts it short. *)
Theorem zoom_clicks_stay_in_range (host : Host) (props : MindmapViewerProps)
    (events : list Event) :
  let c := run host (mount host props) events in
  (forall k z, zoomStates c !! k = Some z ->
     PrimFloat.leb 0.5%float (scale z) = true /\ PrimFloat.leb (scale z) 2%float = true)
  /\ forall index, has_card c index = true ->
       let before := currentScale (zoomStates c) index in
       let out := step host c (ClickZoomOut index) in
       let inn := step host c (ClickZoomIn index) in
       zoomStates out !! key index
         = Some (mkZoomState (Number.max 0.5%float (before - 0.1)%float) (key index))
       /\ zoomStates inn !! key index
            = Some (mkZoomState (Number.min 2%float (before + 0.1)%float) (key index))
       /\ (forall z, zoomStates c !! key index = Some z -> before = scale z)
       /\ exists p : Z,
            percentage (zoomStates c) index = Number.Int p
            /\ percentage (zoomStates out) index = Number.Int (Z.max 50 (p - 10))
            /\ percentage (zoomStates inn) index = Number.Int (Z.min 200 (p + 10)).
Proof.
  intros c.
  assert (levels_ok (zoomStates c)) as Hc by apply run_levels.
  split.
  - intros k z Hz.
    pose proof (level_ok_of_value _ (Hc _ _ Hz)) as (_ & _ & _ & Hlo & Hhi & _).
    by split.
  - intros index Hcard before out inn.
    assert (zoomStates out = zoomOutClick (zoomStates c) index (zoomStates c)) as Hout
      by (unfold out; simpl; by rewrite Hcard).
    assert (zoomStates inn = zoomInClick (zoomStates c) index (zoomStates c)) as Hinn
      by (unfold inn; simpl; by rewrite Hcard).
    assert (zoomStates out !! key index
            = Some (mkZoomState (zoomed_out before) (key index))) as Hout_at
      by (rewrite Hout; unfold zoomOutClick; by rewrite lookup_insert_eq).
    assert (zoomStates inn !! key index
            = Some (mkZoomState (zoomed_in before) (key index))) as Hinn_at
      by (rewrite Hinn; unfold zoomInClick; by rewrite lookup_insert_eq).
    split; [exact Hout_at|]. split; [exact Hinn_at|].
    split; [intros z Hz; by apply currentScale_stored|].
    pose proof (level_ok_of_value _ (currentScale_level _ index Hc))
      as (_ & _ & _ & _ & _ & p & Hp & Hp_out & Hp_in).
    exists p. unfold percentage. split; [exact Hp|].
    assert (levels_ok (zoomStates out)) as Hlo
      by (rewrite Hout; by apply zoomOutClick_levels).
    assert (levels_ok (zoomStates inn)) as Hli
      by (rewrite Hinn; by apply zoomInClick_levels).
    rewrite (currentScale_stored _ _ _ Hlo Hout_at).
    rewrite (currentScale_stored _ _ _ Hli Hinn_at).
    split; [exact Hp_out | exact Hp_in].
Qed.

(** Six clicks on the zoom-out button take the scale from 1 to the floor
    0.5, where a seventh leaves it; the doubles in between are not the
    decimal fractions. *)
Lemma zoom_out_reaches_the_floor :
  let c := mount sample_host (mkProps (Some [sample_mindmap]) None) in
  let stored clicks :=
    scale <$> zoomStates (run sample_host c (repeat (ClickZoomOut 0) clicks)) !! key 0 in
  stored 3 = Some 0.7000000000000001%float
  /\ stored 6 = Some 0.5%float
  /\ stored 7 = Some 0.5%float.
Proof. vm_compute. repeat split; reflexivity. Qed.

(** ** The document tree *)

(** Induction on a node with the hypothesis for all its children. *)
Lemma Node_forest_ind (P : Node -> Prop) :
  (forall data, P (Text data)) ->
  (forall e children, Forall P children -> P (Elem e children)) ->
  forall n, P n.
Proof.
  intros Htext Helem. fix IH 1. intros [e children | data]; [|apply Htext].
  apply Helem. induction children as [|c cs IHcs]; constructor.
  - apply IH.
  - apply IHcs.
Qed.

Lemma flat_map_ext_Forall {A B : Type} (f g : A -> list B) (l : list A) :
  Forall (fun a => f a = g a) l -> flat_map f l = flat_map g l.
Proof.
  induction 1 as [|a l Ha _ IH]; simpl; [done|]. by rewrite Ha, IH.
Qed.

(** A selector without a combinator does not look at the ancestors. *)
Lemma select_group_above (alternatives : list Simple) (above above' : list ElemData)
    (n : Node) :
  select (Group alternatives) above n = select (Group alternatives) above' n.
Proof.
  revert above above'.
  induction n as [data | e children IH] using Node_forest_ind; intros; [done|].
  simpl. f_equal.
  apply flat_map_ext_Forall.
  eapply Forall_impl; [exact IH|]. intros c Hc. apply Hc.
Qed.

Lemma flat_map_select_group_above (alternatives : list Simple)
    (above above' : list ElemData) (l : list Node) :
  flat_map (select (Group alternatives) above) l
  = flat_map (select (Group alternatives) above') l.
Proof.
  apply flat_map_ext_Forall, Forall_forall. intros n _. apply select_group_above.
Qed.

Section Tree.

Variable host : Host.

Local Abbreviation diagrams_selector := (Group [ByClass "mindmap-diagram"]).

(** In a card that still shows the spinner, the elements of class
    [mindmap-diagram] are those of [<NeonBorder />], if any, and the
    diagram element itself. *)
Lemma select_card (zs : ZoomStates) (above : list ElemData) (index : nat) (m : Mindmap) :
  select diagrams_selector above (card host zs spinner index m)
  = NeonBorder_diagrams host ++ [diagram_element spinner].
Proof.
  unfold card, el.
  cbn [select]. rewrite flat_map_app.
  rewrite (flat_map_select_group_above _ _ []).
  reflexivity.
Qed.

Lemma select_cards (zs : ZoomStates) (above : list ElemData) (ms : list Mindmap)
    (from : nat) :
  flat_map (select diagrams_selector above)
    (imap (fun index mindmap => card host zs spinner (from + index) mindmap) ms)
  = flat_map (fun _ => NeonBorder_diagrams host ++ [diagram_element spinner]) ms.
Proof.
  revert from.
  induction ms as [|m ms IH]; intros from; [done|].
  rewrite imap_cons. cbn [flat_map].
  rewrite select_card. f_equal.
  rewrite <- (IH (S from)). f_equal.
  apply imap_ext. intros i x _. simpl. f_equal. lia.
Qed.

Lemma select_processing_line (above : list ElemData) (t : option float) :
  flat_map (select diagrams_selector above) (processing_line t) = [].
Proof.
  destruct t as [t|]; [|done]. unfold processing_line.
  by destruct (Number.truthy t).
Qed.

(** The NodeList the effect iterates over on mount. *)
Lemma mindmapElements_on_mount (ms : list Mindmap) (t : option float) :
  ms <> [] ->
  querySelectorAll diagrams_selector (ancestors host)
    (render host (mkProps (Some ms) t) ∅)
  = flat_map (fun _ => NeonBorder_diagrams host ++ [diagram_element spinner]) ms.
Proof.
  intros Hms. unfold render, view. cbn [mindmaps processingTime].
  destruct ms as [|m ms]; [done|].
  set (entries := m :: ms).
  unfold el. cbn [querySelectorAll]. rewrite !flat_map_app.
  rewrite select_processing_line. cbn [app].
  rewrite (imap_ext _ (fun index mindmap => card host ∅ spinner (0 + index) mindmap))
    by (intros i x _; by rewrite lookup_nil).
  rewrite select_cards.
  replace (flat_map _ (if (0 <? length entries)%nat then [start_study_streak] else []))
    with (@nil Node); [by rewrite app_nil_r|].
  by destruct (0 <? length entries)%nat.
Qed.

Lemma mindmapElements_length (ms : list Mindmap) (t : option float) :
  ms <> [] ->
  length (querySelectorAll diagrams_selector (ancestors host)
            (render host (mkProps (Some ms) t) ∅))
  = elements_on_mount host ms.
Proof.
  intros Hms. rewrite mindmapElements_on_mount by done.
  unfold elements_on_mount.
  induction ms as [|m ms' IH]; [done|].
  cbn [flat_map length]. rewrite !length_app.
  destruct ms' as [|m' ms'']; [simpl; lia|].
  rewrite IH by done. simpl. lia.
Qed.

(** One element per entry when [<NeonBorder />] adds none. *)
Lemma mindmapElements_plain (ms : list Mindmap) (t : option float) :
  NeonBorder_plain host ->
  ms <> [] ->
  querySelectorAll diagrams_selector (ancestors host)
    (render host (mkProps (Some ms) t) ∅)
  = map (fun _ => diagram_element spinner) ms
  /\ elements_on_mount host ms = length ms.
Proof.
  intros Hplain Hms. rewrite mindmapElements_on_mount by done.
  unfold elements_on_mount. rewrite Hplain. split; [|simpl; lia].
  clear Hms. induction ms as [|m ms IH]; [done|].
  simpl in *. by rewrite IH.
Qed.

End Tree.

(** ** Timers and render calls *)

Lemma setTimeout_latest (t : Timer) (queue : list Timer) :
  Forall (fun u => (delay u <= delay t)%Z) queue ->
  setTimeout t queue = queue ++ [t].
Proof.
  induction 1 as [|u queue Hu _ IH]; simpl; [done|].
  destruct (Z.ltb_spec (delay t) (delay u)); [lia|]. by rewrite IH.
Qed.

(** Registering the timers for positions [from], [from + 1], ... leaves
    them queued in that order. *)
Lemma register_in_order (ms : list Mindmap) (zs : ZoomStates) (n from : nat)
    (queue : list Timer) :
  Forall (fun u => (delay u <= Z.of_nat from * 300)%Z) queue ->
  fold_left (fun q t => setTimeout t q) (map (timer_for ms zs) (seq from n)) queue
  = queue ++ map (timer_for ms zs) (seq from n).
Proof.
  revert from queue. induction n as [|n IH]; intros from queue Hqueue; simpl.
  - by rewrite app_nil_r.
  - rewrite setTimeout_latest by exact Hqueue.
    rewrite IH.
    + by rewrite <- app_assoc.
    + apply Forall_app. split.
      * eapply Forall_impl; [exact Hqueue|]. simpl. intros u Hu. lia.
      * repeat constructor. simpl. lia.
Qed.

Lemma imap_positions {A B : Type} (f : nat -> B) (l : list A) :
  imap (fun i _ => f i) l = map f (seq 0 (length l)).
Proof.
  assert (forall from, imap (fun i _ => f (from + i)) l = map f (seq from (length l)))
    as Hgen.
  { induction l as [|a l IH]; intros from; [done|].
    rewrite imap_cons. simpl. f_equal; [f_equal; lia|].
    rewrite <- (IH (S from)). apply imap_ext. intros i x _. simpl. f_equal. lia. }
  exact (Hgen 0).
Qed.

Section Calls.

Variable host : Host.

(** The effect on mount queues one timer per element of the NodeList, in
    that order. *)
Lemma mount_timers (ms : list Mindmap) (t : option float) :
  ms <> [] ->
  timers (mount host (mkProps (Some ms) t))
  = map (timer_for ms ∅) (seq 0 (elements_on_mount host ms)).
Proof.
  intros Hms.
  pose proof (mindmapElements_length host ms t Hms) as Hlength.
  unfold mount, effect, containerRef.
  cbn [mindmaps].
  destruct ms as [|m ms'] eqn:Hshape; [done|]. rewrite <- Hshape in *.
  assert ((0 <? length ms)%nat = true) as ->
    by (rewrite Hshape; reflexivity).
  cbn [timers set_timers].
  change (fun (index : nat) (_ : Node) =>
            mkTimer (Z.of_nat index * 300) (mkClosure index ms ∅))
    with (fun (index : nat) (_ : Node) => timer_for ms ∅ index).
  rewrite imap_positions, Hlength.
  by rewrite (register_in_order ms ∅ _ 0 []).
Qed.

Lemma mount_render_calls (p : MindmapViewerProps) :
  render_calls (mount host p) = [] /\ rendering (mount host p) = [].
Proof. unfold mount. by destruct (effect _ _ _ _). Qed.

Lemma expected_calls_lookup (ms : list Mindmap) (i : nat) (m : Mindmap) :
  ms !! i = Some m -> expected_calls ms !! i = Some (key i, code m).
Proof. intros H. unfold expected_calls. by rewrite list_lookup_imap, H. Qed.

Lemma expected_calls_length (ms : list Mindmap) :
  length (expected_calls ms) = length ms.
Proof. apply length_imap. Qed.

Lemma step_progress (ms : list Mindmap) (total fired : nat) (c : Component)
    (ev : Event) :
  progress ms total fired c ->
  progress ms total (Nat.min total (fired + timers_fired [ev])) (step host c ev).
Proof.
  intros (Hle & Htimers & Hcalls).
  assert (forall c', timers c' = timers c -> render_calls c' = render_calls c ->
                     progress ms total (Nat.min total (fired + 0)) c') as Hsame.
  { intros c' Ht Hc. replace (Nat.min total (fired + 0)) with fired by lia.
    split; [done|]. by rewrite Ht, Hc. }
  destruct ev as [thrown | n outcome | i | i]; cbn [timers_fired].
  - (* a timer fires *)
    destruct (decide (fired < total)) as [Hlt|Hge].
    + replace (total - fired) with (S (total - S fired)) in Htimers by lia.
      cbn [seq map] in Htimers.
      replace (Nat.min total (fired + 1)) with (S fired) by lia.
      cbn [step]. rewrite Htimers.
      unfold timer_callback, try_catch, timer_body, timer_for.
      cbn [callback index closure_mindmaps].
      destruct (ms !! fired) as [m|] eqn:Hm.
      * (* the position is in the list: the call is made *)
        assert (take (S fired) (expected_calls ms)
                = render_calls c ++ [(key fired, code m)]) as Hnext.
        { rewrite Hcalls. erewrite take_S_r; [done|].
          by apply expected_calls_lookup. }
        destruct thrown; (split; [lia|]; split; [exact eq_refl | by rewrite Hnext]).
      * (* beyond the list: reading [.code] throws, which is caught *)
        apply lookup_ge_None in Hm.
        split; [lia|]. split; [exact eq_refl|].
        cbn [settle console_error set_timers render_calls]. rewrite Hcalls.
        rewrite !take_ge; [done| |]; rewrite expected_calls_length; lia.
    + assert (fired = total) as -> by lia.
      replace (total - total) with 0 in * by lia.
      cbn [seq map] in Htimers.
      replace (Nat.min total (total + 1)) with total by lia.
      cbn [step]. rewrite Htimers.
      split; [done|]. rewrite Htimers.
      by replace (total - total) with 0 by lia.
  - apply Hsame; cbn [step]; destruct (rendering c !! n); try done;
      by destruct outcome.
  - apply Hsame; cbn [step]; by destruct (has_card c i).
  - apply Hsame; cbn [step]; by destruct (has_card c i).
Qed.

Lemma timers_fired_app (events events' : list Event) :
  timers_fired (events ++ events') = timers_fired events + timers_fired events'.
Proof.
  induction events as [|e events IH]; [done|].
  destruct e; simpl in *; lia.
Qed.

Lemma run_progress (ms : list Mindmap) (total : nat) (c : Component)
    (events : list Event) :
  progress ms total 0 c ->
  progress ms total (Nat.min total (timers_fired events)) (run host c events).
Proof.
  intros Hstart.
  induction events as [|ev events IH] using rev_ind.
  - simpl. by replace (Nat.min total 0) with 0 by lia.
  - rewrite run_snoc, timers_fired_app.
    pose proof (step_progress _ _ _ _ ev IH) as Hstep.
    replace (Nat.min total (timers_fired events + timers_fired [ev]))
      with (Nat.min total (Nat.min total (timers_fired events) + timers_fired [ev])).
    + exact Hstep.
    + destruct ev; cbn [timers_fired]; lia.
Qed.

End Calls.

Section Entries.

Variable host : Host.

Lemma step_props (c : Component) (ev : Event) : props (step host c ev) = props c.
Proof.
  destruct ev as [thrown | n outcome | i | i]; cbn [step].
  - destruct (timers c) as [|t rest]; [done|].
    unfold timer_callback, try_catch, timer_body.
    destruct (closure_mindmaps (callback t) !! index (callback t)); [|done].
    by destruct thrown.
  - destruct (rendering c !! n); [|done]. by destruct outcome.
  - by destruct (has_card c i).
  - by destruct (has_card c i).
Qed.






End Entries.

(** The two cases differ: for the empty list nothing is thrown, for the
    absent prop the effect's read of [mindmaps.length] raises a
    [TypeError] that no handler of the component catches. *)
Lemma absent_mindmaps_effect_throws (host : Host) (t : option float) :
  uncaught (mount host (mkProps (Some []) t)) = []
  /\ uncaught (mount host (mkProps None t))
     = [mkError "TypeError"
          (lit "Cannot read properties of undefined (reading 'length')")].
Proof. split; reflexivity. Qed.



(** C6.  For a non-empty list of [N] entries the effect queues one timer
    per entry, in list order; the timer of the entry at [index] has the
    delay [index * 300], so the delays grow strictly with the index and
    in proportion to it.  Each of these timers, when it fires, makes the
    one call [mermaid.render(`mindmap-${index}`, mindmaps[index].code)],
    and nothing else makes a call: after [k] timers the calls are those
    of the first [k] entries, and once [N] have fired they are exactly
    the [N] calls, in list order.  (Were [<NeonBorder />] to render
    elements of class [mindmap-diagram], further timers would follow the
    [N]; they make no call.) *)
Theorem one_render_call_per_entry (host : Host) (ms : list Mindmap)
    (t : option float) :
  ms <> [] ->
  let c := mount host (mkProps (Some ms) t) in
  (forall i, i < length ms ->
     exists timer, timers c !! i = Some timer
                   /\ delay timer = (Z.of_nat i * 300)%Z
                   /\ index (callback timer) = i
                   /\ closure_mindmaps (callback timer) = ms)
  /\ (forall i j ti tj, timers c !! i = Some ti -> timers c !! j = Some tj ->
        i < j -> (delay ti < delay tj)%Z)
  /\ (forall events,
        render_calls (run host c events)
        = take (timers_fired events) (imap (fun i m => (key i, code m)) ms))
  /\ (forall events, length ms <= timers_fired events ->
        render_calls (run host c events) = imap (fun i m => (key i, code m)) ms)
  /\ (NeonBorder_plain host ->
        length (timers c) = length ms
        /\ forall events, length ms <= timers_fired events ->
             timers (run host c events) = []).
Proof.
  intros Hms c.
  set (total := elements_on_mount host ms).
  assert (length ms <= total) as Htotal by (unfold total, elements_on_mount; nia).
  assert (timers c = map (timer_for ms ∅) (seq 0 total)) as Htimers
    by (by apply mount_timers).
  assert (forall i timer, timers c !! i = Some timer ->
            i < total /\ timer = timer_for ms ∅ i) as Hat.
  { intros i timer. rewrite Htimers, list_lookup_fmap.
    destruct (seq 0 total !! i) as [k|] eqn:Hk; [|done].
    apply lookup_seq in Hk as [-> Hlt]. simpl. intros [= <-]. done. }
  assert (progress ms total 0 c) as Hstart.
  { split; [lia|]. split.
    - by rewrite Htimers, Nat.sub_0_r.
    - unfold c.
      by destruct (mount_render_calls host (mkProps (Some ms) t)) as [-> _]. }
  assert (forall events,
            render_calls (run host c events)
            = take (timers_fired events) (expected_calls ms)) as Hcalls.
  { intros events.
    destruct (run_progress host ms total c events Hstart) as (_ & _ & ->).
    destruct (decide (timers_fired events <= total)).
    - by replace (Nat.min total (timers_fired events))
        with (timers_fired events) by lia.
    - rewrite !take_ge; [done| |]; rewrite expected_calls_length; lia. }
  split.
  { intros i Hi. exists (timer_for ms ∅ i).
    rewrite Htimers, list_lookup_fmap, lookup_seq_lt by lia. done. }
  split.
  { intros i j ti tj Hi Hj Hij.
    apply Hat in Hi as [_ ->]. apply Hat in Hj as [_ ->]. simpl. lia. }
  split; [exact Hcalls|].
  split.
  { intros events Hall. rewrite Hcalls. apply take_ge.
    by rewrite expected_calls_length. }
  intros Hplain.
  assert (total = length ms) as Hexact
    by (unfold total; by destruct (mindmapElements_plain host ms t Hplain Hms)).
  split; [by rewrite Htimers, length_map, length_seq|].
  intros events Hall.
  destruct (run_progress host ms total c events Hstart) as (_ & -> & _).
  by replace (total - Nat.min total (timers_fired events)) with 0 by lia.
Qed.

Lemma one_render_call_per_entry_witness :
  let c := mount sample_host (mkProps (Some [sample_mindmap; sample_mindmap]) None) in
  map delay (timers c) = [0; 300]%Z
  /\ render_calls (run sample_host c [TimerFires None; TimerFires None])
     = [(lit "mindmap-0", code sample_mindmap); (lit "mindmap-1", code sample_mindmap)].
Proof.
  intros c.
  pose proof (one_render_call_per_entry sample_host
                [sample_mindmap; sample_mindmap] None ltac:(discriminate)) as H.
  split; [vm_compute; reflexivity|].
  destruct H as (_ & _ & _ & Hall & _).
  apply (Hall [TimerFires None; TimerFires None]). simpl. lia.
Defined.

(** ** Render callbacks *)

Lemma setTimeout_Forall (P : Timer -> Prop) (t : Timer) (queue : list Timer) :
  P t -> Forall P queue -> Forall P (setTimeout t queue).
Proof.
  intros Ht. induction 1 as [|u queue Hu Hqueue IH]; simpl.
  - by repeat constructor.
  - destruct (delay t <? delay u)%Z; by repeat constructor.
Qed.

Lemma register_Forall (P : Timer -> Prop) (ts queue : list Timer) :
  Forall P ts -> Forall P queue ->
  Forall P (fold_left (fun q t => setTimeout t q) ts queue).
Proof.
  intros Hts. revert queue.
  induction Hts as [|t ts Ht _ IH]; intros queue Hqueue; simpl; [done|].
  by apply IH, setTimeout_Forall.
Qed.

Lemma error_panel_includes_message (error : JsError) :
  includes (error_panel error) (message error).
Proof.
  unfold error_panel. rewrite !app_assoc.
  rewrite <- (app_assoc _ (message error) _). apply includes_middle.
Qed.




Section Callbacks.

Variable host : Host.

Lemma mount_in_range (p : MindmapViewerProps) : callbacks_in_range (mount host p).
Proof.
  unfold mount, effect, containerRef.
  destruct (mindmaps p) as [[|m ms]|]; try (by split; constructor).
  set (elements := querySelectorAll _ _ _).
  cbn [length Nat.ltb Nat.leb].
  split; [|constructor].
  cbn [timers diagrams set_timers]. rewrite length_map.
  apply register_Forall; [|constructor].
  apply Forall_forall. intros t Ht.
  apply list_elem_of_lookup in Ht as [i Hi].
  rewrite list_lookup_imap in Hi.
  destruct (elements !! i) as [element|] eqn:Helement; [|done].
  injection Hi as <-. simpl. by eapply lookup_lt_Some.
Qed.

Lemma step_in_range (c : Component) (ev : Event) :
  callbacks_in_range c -> callbacks_in_range (step host c ev).
Proof.
  intros [Htimers Hrendering].
  destruct ev as [thrown | n outcome | i | i]; cbn [step].
  - destruct (timers c) as [|t rest] eqn:Hqueue.
    { split; [by rewrite Hqueue | done]. }
    apply Forall_cons in Htimers as [Ht Hrest].
    unfold timer_callback, try_catch, timer_body.
    destruct (closure_mindmaps (callback t) !! index (callback t)).
    + destruct thrown; (split; [exact Hrest|]); cbn; [done|].
      apply Forall_app. split; [done|]. by repeat constructor.
    + by split.
  - destruct (rendering c !! n) as [k|] eqn:Hk; [|by split].
    assert (Forall (fun k' => index k' < length (diagrams c)) (delete n (rendering c)))
      as Hdeleted.
    { apply Forall_forall. intros k' Hk'.
      apply (proj1 (Forall_forall _ _) Hrendering).
      eapply elem_of_sublist; [exact Hk'|]. apply sublist_delete. }
    destruct outcome as [result | error]; cbn; unfold callbacks_in_range; cbn;
      rewrite length_insert; by split.
  - by destruct (has_card c i).
  - by destruct (has_card c i).
Qed.

Lemma run_in_range (p : MindmapViewerProps) (events : list Event) :
  callbacks_in_range (run host (mount host p) events).
Proof.
  induction events as [|ev events IH] using rev_ind.
  - apply mount_in_range.
  - rewrite run_snoc. by apply step_in_range.
Qed.


End Callbacks.






(** ** The download button *)

Lemma filter_other (x : nat) (l : list nat) :
  x ∉ l -> filter (fun n => n ≠ x) l = l.
Proof.
  induction l as [|a l IH]; [done|].
  rewrite not_elem_of_cons. intros [Hne Hnotin].
  rewrite filter_cons_True by done. by rewrite IH.
Qed.

Lemma filter_appended (x : nat) (l : list nat) :
  x ∉ l -> filter (fun n => n ≠ x) (l ++ [x]) = l.
Proof.
  intros Hnotin. rewrite filter_app, filter_other by done.
  rewrite filter_cons_False by (intros H; by apply H).
  by rewrite filter_nil, app_nil_r.
Qed.

Lemma fresh_url_unused (urls : gmap nat Blob) : urls !! fresh (dom urls) = None.
Proof. apply not_elem_of_dom, is_fresh. Qed.

Section DownloadButton.

Variable host : Host.

(** What the handler does once the selector has found an element. *)
Lemma handleDownload_found (container : option Node) (index : nat)
    (mindmap : Mindmap) (found : Node) (w : Browser) :
  (root ← container;
   querySelector (Within (ById (key index)) (ByTag "svg")) (ancestors host) root)
    = Some found ->
  handleDownload host container index mindmap w
  = (inr (),
     mkBrowser (body w) (object_urls w)
       (downloads w
        ++ [mkDownload (Some (download_name mindmap))
              (Some (mkBlob (serializeToString host found) "image/svg+xml"))])).
Proof.
  intros Hfound. unfold handleDownload. rewrite Hfound.
  unfold mbind, Js_bind, createObjectURL, createElement_a, appendChild, click,
    removeChild, revokeObjectURL.
  cbn [body object_urls downloads anchor_node href download fst snd].
  pose proof (infinite_is_fresh (body w)) as Hnode.
  rewrite filter_other by exact Hnode.
  rewrite bool_decide_eq_true_2 by (apply elem_of_app; right; by apply list_elem_of_singleton).
  rewrite filter_appended by exact Hnode.
  rewrite lookup_insert_eq.
  cbn [body object_urls downloads].
  rewrite delete_insert_eq, delete_id by apply fresh_url_unused.
  reflexivity.
Qed.

(** The guard [if (svg)]: without a match the handler does nothing. *)
Lemma handleDownload_not_found (container : option Node) (index : nat)
    (mindmap : Mindmap) (w : Browser) :
  (root ← container;
   querySelector (Within (ById (key index)) (ByTag "svg")) (ancestors host) root)
    = None ->
  handleDownload host container index mindmap w = (inr (), w).
Proof. intros Hnone. unfold handleDownload. by rewrite Hnone. Qed.

(** C8.  After the handler has run, [document.body] has the children it
    had before and the object URLs that are live are those that were live
    before: the link it appended has been removed again and the object
    URL it created has been revoked.  The handler does not throw. *)
Theorem download_leaves_nothing_behind (container : option Node) (index : nat)
    (mindmap : Mindmap) (w : Browser) :
  fst (handleDownload host container index mindmap w) = inr ()
  /\ body (snd (handleDownload host container index mindmap w)) = body w
  /\ object_urls (snd (handleDownload host container index mindmap w))
     = object_urls w.
Proof.
  destruct (root ← container;
            querySelector (Within (ById (key index)) (ByTag "svg"))
              (ancestors host) root) as [found|] eqn:Hquery.
  - by rewrite (handleDownload_found _ _ _ _ _ Hquery).
  - by rewrite (handleDownload_not_found _ _ _ _ Hquery).
Qed.

End DownloadButton.

(** ** Selecting below an id, and what the styling keeps *)

Lemma existsb_ext_Forall {A : Type} (f g : A -> bool) (l : list A) :
  Forall (fun a => f a = g a) l -> existsb f l = existsb g l.
Proof. induction 1 as [|a l Ha _ IH]; simpl; [done|]. by rewrite Ha, IH. Qed.

Lemma existsb_map {A B : Type} (f : B -> bool) (g : A -> B) (l : list A) :
  existsb f (map g l) = existsb (fun a => f (g a)) l.
Proof. induction l as [|a l IH]; simpl; [done|]. by rewrite IH. Qed.

Lemma flat_map_nil_Forall {A B : Type} (f : A -> list B) (l : list A) :
  Forall (fun a => f a = []) l -> flat_map f l = [].
Proof. induction 1 as [|a l Ha _ IH]; simpl; [done|]. by rewrite Ha, IH. Qed.

Lemma existsb_false_Forall {A : Type} (f : A -> bool) (l : list A) :
  existsb f l = false -> Forall (fun a => f a = false) l.
Proof.
  induction l as [|a l IH]; simpl; [constructor|].
  intros [Ha Hl]%orb_false_elim. constructor; [done|by apply IH].
Qed.

(** Without an element of the wanted tag there is nothing to select. *)
Lemma select_within_no_tag (a : Simple) (t : string) (above : list ElemData) (n : Node) :
  has_tag t n = false -> select (Within a (ByTag t)) above n = [].
Proof.
  revert above.
  induction n as [data | e children IH] using Node_forest_ind; intros above; [done|].
  cbn [has_tag select matches matches_simple].
  intros [Hroot Hchildren]%orb_false_elim. rewrite Hroot. cbn [andb app].
  apply flat_map_nil_Forall.
  apply existsb_false_Forall in Hchildren.
  apply Forall_forall. intros c Hc.
  apply (proj1 (Forall_forall _ _) IH c Hc).
  apply (proj1 (Forall_forall _ _) Hchildren c Hc).
Qed.

(** Without the id, above or inside, there is nothing to select below it. *)
Lemma select_within_no_id (k : JsString) (t : Simple) (above : list ElemData) (n : Node) :
  existsb (matches_simple (ById k)) above = false ->
  has_id k n = false ->
  select (Within (ById k) t) above n = [].
Proof.
  revert above.
  induction n as [data | e children IH] using Node_forest_ind; intros above Habove;
    [done|].
  cbn [has_id select matches].
  intros [Hroot Hchildren]%orb_false_elim.
  rewrite Habove, andb_false_r. cbn [app].
  apply flat_map_nil_Forall.
  apply existsb_false_Forall in Hchildren.
  apply Forall_forall. intros c Hc.
  apply (proj1 (Forall_forall _ _) IH c Hc).
  - cbn [existsb matches_simple]. by rewrite Hroot, Habove.
  - apply (proj1 (Forall_forall _ _) Hchildren c Hc).
Qed.


Lemma update_first_Elem (p : ElemData -> bool) (f : Node -> Node) (e : ElemData)
    (children : list Node) :
  update_first p f (Elem e children)
  = if p e then Some (f (Elem e children))
    else Elem e <$> update_first_in p f children.
Proof.
  cbn [update_first]. destruct (p e); [done|]. f_equal.
  induction children as [|c cs IH]; [done|].
  cbn [update_first_in]. destruct (update_first p f c); [done|]. by rewrite IH.
Qed.

(** An update of one element that keeps the tags keeps them in the
    whole tree. *)
Lemma has_tag_update_first (t : string) (p : ElemData -> bool) (f : Node -> Node) :
  (forall m, has_tag t (f m) = has_tag t m) ->
  forall n n', update_first p f n = Some n' -> has_tag t n' = has_tag t n.
Proof.
  intros Hf.
  induction n as [data | e children IH] using Node_forest_ind; intros n'; [done|].
  rewrite update_first_Elem. destruct (p e).
  { intros [= <-]. apply Hf. }
  destruct (update_first_in p f children) as [children'|] eqn:Hin; [|done].
  intros [= <-]. cbn [has_tag]. f_equal.
  revert children' Hin.
  induction IH as [|c cs Hc _ IHcs]; intros children'; [done|].
  cbn [update_first_in].
  destruct (update_first p f c) as [c'|] eqn:Hfirst.
  - intros [= <-]. cbn [existsb]. by rewrite (Hc _ eq_refl).
  - destruct (update_first_in p f cs) as [cs'|]; [|done].
    intros [= <-]. cbn [existsb]. by rewrite (IHcs _ eq_refl).
Qed.

Lemma has_tag_update_first_in (t : string) (p : ElemData -> bool) (f : Node -> Node)
    (l l' : list Node) :
  (forall m, has_tag t (f m) = has_tag t m) ->
  update_first_in p f l = Some l' ->
  existsb (has_tag t) l' = existsb (has_tag t) l.
Proof.
  intros Hf. revert l'.
  induction l as [|c cs IH]; intros l'; [done|].
  cbn [update_first_in].
  destruct (update_first p f c) as [c'|] eqn:Hfirst.
  - intros [= <-]. cbn [existsb].
    by rewrite (has_tag_update_first t p f Hf _ _ Hfirst).
  - destruct (update_first_in p f cs) as [cs'|]; [|done].
    intros [= <-]. cbn [existsb]. by rewrite (IH _ eq_refl).
Qed.

Lemma has_tag_map_data (t : string) (g : ElemData -> ElemData) (n : Node) :
  (forall e, tag (g e) = tag e) -> has_tag t (map_data g n) = has_tag t n.
Proof. intros Hg. destruct n as [e children|]; [|done]. cbn. by rewrite Hg. Qed.

Lemma has_tag_update_descendants (t : string) (p : ElemData -> bool) (f : Node -> Node) :
  (forall m, has_tag t (f m) = has_tag t m) ->
  forall n, has_tag t (update_descendants p f n) = has_tag t n.
Proof.
  intros Hf.
  induction n as [data | e children IH] using Node_forest_ind; [done|].
  cbn [update_descendants has_tag]. f_equal.
  rewrite existsb_map. apply existsb_ext_Forall.
  eapply Forall_impl; [exact IH|]. intros c Hc. cbn beta zeta in *.
  destruct (update_descendants p f c) as [ce cs|]; [|done].
  destruct (p ce); [by rewrite Hf|done].
Qed.

(** The same for what [update_descendants] does to one child. *)
Lemma has_tag_descend (t : string) (p : ElemData -> bool) (f : Node -> Node) (c : Node) :
  (forall m, has_tag t (f m) = has_tag t m) ->
  has_tag t (let c' := update_descendants p f c in
             match c' with
             | Elem ce _ => if p ce then f c' else c'
             | Text _ => c'
             end) = has_tag t c.
Proof.
  intros Hf. cbn zeta.
  pose proof (has_tag_update_descendants t p f Hf c) as Hc.
  destruct (update_descendants p f c) as [ce cs|]; [|done].
  destruct (p ce); [by rewrite Hf|done].
Qed.

Lemma has_tag_round_corners (t : string) (n : Node) :
  has_tag t (round_corners n) = has_tag t n.
Proof.
  destruct n as [e children|]; [|done]. unfold round_corners.
  destruct (update_first_in _ _ children) as [children'|] eqn:Hin; [|done].
  cbn [has_tag]. f_equal.
  eapply has_tag_update_first_in; [|exact Hin].
  intros m. by apply has_tag_map_data.
Qed.

(** The styling of the rendered [svg] changes its inline style only: the
    element keeps its tag and id, and below it the same tags occur. *)
Lemma decorate_shape (zs : ZoomStates) (i : nat) (t : string) (e : ElemData)
    (children : list Node) :
  exists children',
    decorate zs i (Elem e children) = Elem (style_svg zs i e) children'
    /\ existsb (has_tag t) children' = existsb (has_tag t) children.
Proof.
  unfold decorate. cbn [map_data update_descendants].
  eexists. split; [reflexivity|].
  rewrite !existsb_map. apply existsb_ext_Forall, Forall_forall. intros c _.
  etransitivity.
  - apply has_tag_descend, has_tag_round_corners.
  - apply has_tag_descend. intros m. by apply has_tag_map_data.
Qed.

Lemma find_assign_eq {V : Type} (name : string) (v : V) (l : list (string * V)) :
  List.find (fun kv => String.eqb (fst kv) name) (assign name v l) = Some (name, v).
Proof.
  unfold assign. induction l as [|[k w] l IH]; simpl.
  - by rewrite String.eqb_refl.
  - rewrite filter_cons. simpl.
    destruct (String.eqb k name) eqn:Hk; simpl; [exact IH|].
    by rewrite Hk.
Qed.

Lemma find_assign_ne {V : Type} (name other : string) (v : V) (l : list (string * V)) :
  name <> other ->
  List.find (fun kv => String.eqb (fst kv) name) (assign other v l)
  = List.find (fun kv => String.eqb (fst kv) name) l.
Proof.
  intros Hne. unfold assign. induction l as [|[k w] l IH]; simpl.
  - destruct (String.eqb_spec other name); [congruence|done].
  - rewrite filter_cons. simpl.
    destruct (String.eqb_spec k other) as [->|Hother]; simpl.
    + destruct (String.eqb_spec other name); [congruence|exact IH].
    + destruct (String.eqb k name); [done|exact IH].
Qed.

Lemma get_style_set_style_eq (name : string) (v : StyleValue) (e : ElemData) :
  get_style name (set_style name v e) = Some v.
Proof. unfold get_style, set_style. cbn [style]. by rewrite find_assign_eq. Qed.

Lemma get_style_set_style_ne (name other : string) (v : StyleValue) (e : ElemData) :
  name <> other -> get_style name (set_style other v e) = get_style name e.
Proof.
  intros Hne. unfold get_style, set_style. cbn [style].
  by rewrite find_assign_ne.
Qed.

(** The render callback leaves [svg_transform] of its own zoom state in
    the [transform] style, and keeps tag and id. *)
Lemma style_svg_transform (zs : ZoomStates) (i : nat) (e : ElemData) :
  get_style "transform" (style_svg zs i e) = Some (svg_transform zs i)
  /\ tag (style_svg zs i e) = tag e
  /\ elem_id (style_svg zs i e) = elem_id e.
Proof.
  unfold style_svg. split; [|done].
  rewrite !get_style_set_style_ne by discriminate.
  apply get_style_set_style_eq.
Qed.

Section Rendered.

Variable host : Host.

(** The component right after mounting a non-empty list. *)
Lemma mount_state (ms : list Mindmap) (t : option float) :
  NeonBorder_plain host ->
  ms <> [] ->
  mount host (mkProps (Some ms) t)
  = mkComponent (mkProps (Some ms) t) ∅ (map (fun _ => spinner) ms)
      (map (timer_for ms ∅) (seq 0 (length ms))) [] [] [] [] false.
Proof.
  intros Hplain Hms.
  pose proof (mount_timers host ms t Hms) as Htimers.
  destruct (mindmapElements_plain host ms t Hplain Hms) as [Helements Hcount].
  rewrite Hcount in Htimers.
  unfold mount, effect, containerRef in *. cbn [mindmaps] in *.
  destruct ms as [|m ms'] eqn:Hshape; [done|]. rewrite <- Hshape in *.
  assert ((0 <? length ms)%nat = true) as Hpos by (rewrite Hshape; reflexivity).
  rewrite Hpos in *.
  rewrite Helements in *.
  cbn [timers set_timers] in Htimers. unfold set_timers. cbn.
  rewrite Htimers. f_equal. rewrite map_map. done.
Qed.

(** One entry; its timer fires and the render call resolves. *)
Lemma first_diagram_rendered (m : Mindmap) (t : option float) (markup : JsString) :
  NeonBorder_plain host ->
  run host (mount host (mkProps (Some [m]) t))
    [TimerFires None; RenderSettles 0 (Resolved (mkRenderResult markup))]
  = mkComponent (mkProps (Some [m]) t) ∅
      [default (parseHTML host markup)
         (update_first_in (matches (Group [ByTag "svg"]) []) (decorate ∅ 0)
            (parseHTML host markup))]
      [] [] [(key 0, code m)] [] [] false.
Proof.
  intros Hplain. rewrite mount_state by done. reflexivity.
Qed.

End Rendered.

Lemma no_id_above (k : JsString) (d : ElemData) (above : list ElemData) :
  elem_id d = None ->
  existsb (matches_simple (ById k)) above = false ->
  existsb (matches_simple (ById k)) (d :: above) = false.
Proof. intros Hd Habove. cbn [existsb matches_simple]. by rewrite Hd, Habove. Qed.

(** ** Where the code departs from the specification *)

(** A zoom click leaves every diagram element as it is: only the React
    state changes. *)
Lemma zoom_click_keeps_diagrams (host : Host) (c : Component) (i : nat) :
  diagrams (step host c (ClickZoomOut i)) = diagrams c
  /\ diagrams (step host c (ClickZoomIn i)) = diagrams c.
Proof. cbn [step]. by destruct (has_card c i). Qed.

Lemma run_closures_from_mount (host : Host) (p : MindmapViewerProps)
    (events : list Event) :
  closures_from_mount (run host (mount host p) events).
Proof.
  induction events as [|ev events [IHt IHr]] using rev_ind.
  - unfold mount, effect, containerRef.
    destruct (mindmaps p) as [[|m ms]|]; try (by split; constructor).
    cbn [length Nat.ltb Nat.leb]. split; [|constructor].
    cbn [timers set_timers].
    apply register_Forall; [|constructor].
    apply Forall_forall. intros t Ht.
    apply list_elem_of_lookup in Ht as [i Hi].
    rewrite list_lookup_imap in Hi.
    destruct (_ !! i); [|done]. by injection Hi as <-.
  - rewrite run_snoc. set (c := run host (mount host p) events) in *.
    destruct ev as [thrown | n outcome | i | i]; cbn [step].
    + destruct (timers c) as [|t rest] eqn:Hqueue.
      { split; [by rewrite Hqueue | done]. }
      apply Forall_cons in IHt as [Ht Hrest].
      unfold timer_callback, try_catch, timer_body.
      destruct (closure_mindmaps (callback t) !! index (callback t)); [|by split].
      destruct thrown; (split; [exact Hrest|]); cbn; [done|].
      apply Forall_app. split; [done|]. by repeat constructor.
    + destruct (rendering c !! n) as [k|] eqn:Hk; [|by split].
      assert (Forall (fun k' => closure_zoomStates k' = ∅) (delete n (rendering c))).
      { apply Forall_forall. intros k' Hk'.
        apply (proj1 (Forall_forall _ _) IHr).
        eapply elem_of_sublist; [exact Hk'|]. apply sublist_delete. }
      destruct outcome; by split.
    + by destruct (has_card c i).
    + by destruct (has_card c i).
Qed.

Section Departures.

Variable host : Host.

Lemma first_diagram_zoomed_then_rendered (m : Mindmap) (t : option float)
    (markup : JsString) :
  NeonBorder_plain host ->
  run host (mount host (mkProps (Some [m]) t))
    [TimerFires None; ClickZoomIn 0; RenderSettles 0 (Resolved (mkRenderResult markup))]
  = mkComponent (mkProps (Some [m]) t) (zoomInClick ∅ 0 ∅)
      [default (parseHTML host markup)
         (update_first_in (matches (Group [ByTag "svg"]) []) (decorate ∅ 0)
            (parseHTML host markup))]
      [] [] [(key 0, code m)] [] [] false.
Proof.
  intros Hplain. rewrite mount_state by done. reflexivity.
Qed.

(** What the render callback leaves in the diagram element when the
    markup is a single [svg] element. *)
Lemma rendered_content (zs : ZoomStates) (i : nat) (t : string) (e : ElemData)
    (children : list Node) :
  tag e = "svg" ->
  exists children',
    default [Elem e children]
      (update_first_in (matches (Group [ByTag "svg"]) []) (decorate zs i)
         [Elem e children])
    = [Elem (style_svg zs i e) children']
    /\ existsb (has_tag t) children' = existsb (has_tag t) children.
Proof.
  intros Htag.
  destruct (decorate_shape zs i t e children) as (children' & Hshape & Htags).
  exists children'. split; [|exact Htags].
  cbn [update_first_in]. rewrite update_first_Elem.
  cbn [matches existsb matches_simple]. rewrite Htag, Hshape. reflexivity.
Qed.

Lemma zoomed_in_once :
  scale <$> zoomInClick ∅ 0 ∅ !! key 0 = Some 1.1%float
  /\ percentage (zoomInClick ∅ 0 ∅) 0 = Number.Int 110.
Proof. vm_compute. split; reflexivity. Qed.

(** C2 fails on the code: the transform does not follow the stored scale.
    One diagram is rendered (the markup is an [svg] element) and its
    zoom-in button is clicked once.  The stored scale is then 1.1 and the
    percentage shown is 110, but the [svg] still has the transform
    scale(1).  The same happens when the click comes first and the
    diagram is rendered afterwards: the render callback reads the zoom
    state of the first render. *)
Theorem zoom_click_does_not_reach_transform (m : Mindmap) (t : option float)
    (markup : JsString) (e : ElemData) (children : list Node) :
  NeonBorder_plain host ->
  parseHTML host markup = [Elem e children] ->
  tag e = "svg" ->
  let rendered := RenderSettles 0 (Resolved (mkRenderResult markup)) in
  let click_last :=
    run host (mount host (mkProps (Some [m]) t))
      [TimerFires None; rendered; ClickZoomIn 0] in
  let click_first :=
    run host (mount host (mkProps (Some [m]) t))
      [TimerFires None; ClickZoomIn 0; rendered] in
  (scale <$> zoomStates click_last !! key 0 = Some 1.1%float
   /\ percentage (zoomStates click_last) 0 = Number.Int 110
   /\ applied_transform click_last 0 = Some (CssScale 1%float))
  /\ (scale <$> zoomStates click_first !! key 0 = Some 1.1%float
      /\ percentage (zoomStates click_first) 0 = Number.Int 110
      /\ applied_transform click_first 0 = Some (CssScale 1%float)).
Proof.
  intros Hplain Hparse Htag rendered click_last click_first.
  destruct (rendered_content ∅ 0 "svg" e children Htag) as (children' & Hcontent & _).
  destruct (style_svg_transform ∅ 0 e) as (Htransform & Htag' & _).
  assert (forall c, diagrams c = [[Elem (style_svg ∅ 0 e) children']] ->
            applied_transform c 0 = Some (CssScale 1%float)) as Happlied.
  { intros c Hc. unfold applied_transform. rewrite Hc.
    cbn [lookup list_lookup mbind option_bind flat_map select matches existsb
         matches_simple].
    rewrite Htag', Htag. cbn. exact Htransform. }
  destruct zoomed_in_once as [Hscale Hpercent].
  split.
  - assert (click_last
            = step host (run host (mount host (mkProps (Some [m]) t))
                           [TimerFires None; rendered]) (ClickZoomIn 0)) as ->
      by reflexivity.
    unfold rendered. rewrite first_diagram_rendered by done.
    rewrite Hparse, Hcontent.
    split; [exact Hscale|]. split; [exact Hpercent|].
    by apply Happlied.
  - unfold click_first, rendered.
    rewrite first_diagram_zoomed_then_rendered by done.
    rewrite Hparse, Hcontent.
    split; [exact Hscale|]. split; [exact Hpercent|].
    by apply Happlied.
Qed.

(** The selector of the download button, [#mindmap-${index} svg]. *)
Local Abbreviation download_selector index := (Within (ById (key index)) (ByTag "svg")).

(** In the page of a component that shows one rendered diagram, the
    selector of the download button matches nothing: the elements React
    creates carry no id, so the rendered [svg] has no ancestor with the
    id, and nothing below it is an [svg]. *)
Lemma download_selector_matches_nothing (zs : ZoomStates) (m : Mindmap)
    (t : option float) (e : ElemData) (children : list Node) :
  existsb (has_id (key 0)) (NeonBorder host) = false ->
  existsb (matches_simple (ById (key 0))) (ancestors host) = false ->
  tag e = "svg" ->
  existsb (has_tag "svg") children = false ->
  querySelectorAll (download_selector 0) (ancestors host)
    (view host (mkProps (Some [m]) t) zs [[Elem e children]]) = [].
Proof.
  intros Hneon Hpage Htag Hnested.
  unfold view. cbn [mindmaps processingTime imap length Nat.ltb Nat.leb].
  unfold el at 1. cbn [querySelectorAll].
  set (root := mkElem "div" None "space-y-8" [] []).
  assert (existsb (matches_simple (ById (key 0))) (root :: ancestors host) = false)
    as Hroot by (by apply no_id_above).
  rewrite !flat_map_app.
  assert (flat_map (select (download_selector 0) (root :: ancestors host))
            (processing_line t) = []) as ->.
  { apply flat_map_nil_Forall, Forall_forall. intros n Hn.
    apply select_within_no_id; [exact Hroot|].
    unfold processing_line in Hn. destruct t as [x|]; [|by apply elem_of_nil in Hn].
    destruct (Number.truthy x);
      apply list_elem_of_singleton in Hn as ->; reflexivity. }
  assert (flat_map (select (download_selector 0) (root :: ancestors host))
            [start_study_streak] = []) as ->.
  { cbn [flat_map]. rewrite app_nil_r. by apply select_within_no_id. }
  rewrite app_nil_r. cbn [app flat_map]. rewrite app_nil_r.
  (* the one card *)
  unfold card, el. cbn [select matches]. rewrite Hroot, andb_false_r. cbn [app].
  set (card_data := mkElem "div" None _ [] []).
  assert (existsb (matches_simple (ById (key 0)))
            (card_data :: root :: ancestors host) = false)
    as Hcard by (by apply no_id_above).
  rewrite flat_map_app.
  assert (flat_map (select (download_selector 0) (card_data :: root :: ancestors host))
            (NeonBorder host) = []) as ->.
  { apply flat_map_nil_Forall, Forall_forall. intros n Hn.
    apply select_within_no_id; [exact Hcard|].
    apply existsb_false_Forall in Hneon.
    apply (proj1 (Forall_forall _ _) Hneon n Hn). }
  cbn [app flat_map].
  rewrite (select_within_no_id _ _ _ (Elem _ [Text _])) by done.
  rewrite (select_within_no_id _ _ _ (Elem (mkElem "div" None "flex justify-end gap-2 mb-4" [] []) _))
    by done.
  cbn [app]. rewrite app_nil_r.
  (* the diagram element and the rendered svg inside it *)
  unfold diagram_element. cbn [default from_option lookup list_lookup id].
  cbn [select matches]. rewrite Hcard, andb_false_r. cbn [app flat_map].
  rewrite app_nil_r. cbn [select matches].
  rewrite (no_id_above _ diagram_data _ eq_refl Hcard), andb_false_r.
  cbn [app].
  apply flat_map_nil_Forall, Forall_forall. intros n Hn.
  apply select_within_no_tag.
  apply existsb_false_Forall in Hnested.
  apply (proj1 (Forall_forall _ _) Hnested n Hn).
Qed.


(** C4 fails on the code: the download button finds nothing to export.
    One diagram is rendered; its markup is an [svg] element without
    another [svg] inside, as mermaid returns it.  No element above the
    component and none rendered by [<NeonBorder />] has the id
    [mindmap-0], and the component itself gives an id to no element.  The
    selector [#mindmap-0 svg] asks for an [svg] below an element with that
    id, so [querySelector] returns [null] and the handler starts no
    download, whether or not the rendered [svg] carries the id itself. *)
Theorem download_finds_no_svg (m : Mindmap) (t : option float) (markup : JsString)
    (e : ElemData) (children : list Node) :
  NeonBorder_plain host ->
  existsb (has_id (key 0)) (NeonBorder host) = false ->
  existsb (matches_simple (ById (key 0))) (ancestors host) = false ->
  parseHTML host markup = [Elem e children] ->
  tag e = "svg" ->
  existsb (has_tag "svg") children = false ->
  let c := run host (mount host (mkProps (Some [m]) t))
             [TimerFires None; RenderSettles 0 (Resolved (mkRenderResult markup))] in
  (exists children', diagrams c = [[Elem (style_svg ∅ 0 e) children']])
  /\ querySelector (download_selector 0) (ancestors host) (document_of host c) = None
  /\ forall w, clickDownload host c 0 w = (inr (), w).
Proof.
  intros Hplain Hneon Hpage Hparse Htag Hnested c.
  destruct (rendered_content ∅ 0 "svg" e children Htag)
    as (children' & Hcontent & Htags).
  assert (c = mkComponent (mkProps (Some [m]) t) ∅
                [[Elem (style_svg ∅ 0 e) children']] [] [] [(key 0, code m)] [] []
                false)
    as Hc.
  { unfold c. rewrite first_diagram_rendered by done. by rewrite Hparse, Hcontent. }
  assert (querySelector (download_selector 0) (ancestors host) (document_of host c)
          = None) as Hquery.
  { unfold querySelector, document_of. rewrite Hc. cbn [props zoomStates diagrams].
    rewrite download_selector_matches_nothing; [done..| |].
    - by destruct (style_svg_transform ∅ 0 e) as (_ & -> & _).
    - by rewrite Htags. }
  split; [exists children'; by rewrite Hc|].
  split; [exact Hquery|].
  intros w. unfold clickDownload.
  assert (default [] (mindmaps (props c)) !! 0 = Some m) as ->
    by (by rewrite Hc).
  apply handleDownload_not_found.
  assert (containerRef (props c) (document_of host c) = Some (document_of host c))
    as -> by (by rewrite Hc).
  exact Hquery.
Qed.

End Departures.

Lemma zoom_click_does_not_reach_transform_witness :
  let p := mkProps (Some [sample_mindmap]) None in
  let rendered := RenderSettles 0 (Resolved (mkRenderResult sample_markup)) in
  let c := run sample_host (mount sample_host p)
             [TimerFires None; rendered; ClickZoomIn 0] in
  parseHTML sample_host sample_markup = [sample_svg]
  /\ scale <$> zoomStates c !! key 0 = Some 1.1%float
  /\ percentage (zoomStates c) 0 = Number.Int 110
  /\ applied_transform c 0 = Some (CssScale 1%float).
Proof.
  intros p rendered c. split; [reflexivity|].
  assert (NeonBorder_plain sample_host) as Hplain by reflexivity.
  assert (parseHTML sample_host sample_markup = [sample_svg]) as Hparse
    by reflexivity.
  destruct (zoom_click_does_not_reach_transform sample_host sample_mindmap None
              sample_markup _ _ Hplain Hparse eq_refl) as [Hlast _].
  exact Hlast.
Defined.

Lemma download_finds_no_svg_witness :
  let p := mkProps (Some [sample_mindmap]) None in
  let c := run sample_host (mount sample_host p)
             [TimerFires None;
              RenderSettles 0 (Resolved (mkRenderResult sample_markup))] in
  parseHTML sample_host sample_markup = [sample_svg]
  /\ clickDownload sample_host c 0 (mkBrowser [] ∅ []) = (inr (), mkBrowser [] ∅ []).
Proof.
  intros p c. split; [reflexivity|].
  assert (NeonBorder_plain sample_host) as Hplain by reflexivity.
  assert (parseHTML sample_host sample_markup = [sample_svg]) as Hparse
    by reflexivity.
  destruct (download_finds_no_svg sample_host sample_mindmap None sample_markup
              _ _ Hplain eq_refl eq_refl Hparse eq_refl eq_refl)
    as (_ & _ & Hclick).
  apply Hclick.
Defined.

(** The handler itself does what the specification says once the
    selector finds an element: had the diagram element carried the id,
    the rendered [svg] would have been downloaded under the expected
    name. *)
Lemma download_below_an_id :
  let page := el "div" "space-y-8"
                [ Elem (mkElem "div" (Some (key 0)) "mindmap-diagram" [] [])
                    [ sample_svg ] ] in
  handleDownload sample_host (Some page) 0 sample_mindmap (mkBrowser [7] ∅ [])
  = (inr (),
     mkBrowser [7] ∅
       [ mkDownload (Some (lit "Cell_biology_notes_mindmap.svg"))
           (Some (mkBlob (serializeToString sample_host sample_svg) "image/svg+xml")) ]).
Proof. intros page. by rewrite (handleDownload_found _ _ _ _ sample_svg). Qed.

(* ===================================================================== *)
(** * Further properties of the code *)
(* ===================================================================== *)

(** ** The upload client *)

(** X1.  [uploadPDF] writes to the console exactly when it rejects, and
    then one entry that carries the rejection reason.  It resolves only
    for a response with a 2xx status whose body parsed, and then with the
    parsed body as it is. *)
Theorem uploadPDF_logs_what_it_rejects_with (number_to_string : float -> JsString)
    (fetched : Settled Api.Response) :
  match Api.uploadPDF number_to_string fetched with
  | (log, Rejected error) => log = [mkLog "Error uploading PDF:" error]
  | (log, Resolved data) =>
      log = []
      /\ exists response,
           fetched = Resolved response
           /\ Api.ok response = true
           /\ Api.json response = Resolved data
  end.
Proof.
  unfold Api.uploadPDF.
  destruct (Api.try_block number_to_string fetched) as [data | error] eqn:Htry;
    [|done].
  split; [done|].
  unfold Api.try_block in Htry.
  destruct fetched as [response | e]; [|done].
  exists response. split; [done|].
  destruct (Api.ok response); cbn [negb] in Htry.
  - by split.
  - destruct (Api.json response) as [errorData|]; [|done].
    by destruct (Api.get_error errorData).
Qed.

(** X2.  An error that comes from below is passed on unchanged: when
    [fetch] rejects, or when [response.json()] rejects (whatever the
    status), [uploadPDF] logs that error and rejects with it. *)
Theorem uploadPDF_passes_errors_through (number_to_string : float -> JsString)
    (fetched : Settled Api.Response) (e : JsError) :
  fetched = Rejected e
  \/ (exists response, fetched = Resolved response /\ Api.json response = Rejected e) ->
  Api.uploadPDF number_to_string fetched
  = ([mkLog "Error uploading PDF:" e], Rejected e).
Proof.
  intros [-> | (response & -> & Hjson)]; [done|].
  unfold Api.uploadPDF, Api.try_block. rewrite Hjson.
  by destruct (negb (Api.ok response)).
Qed.

Lemma uploadPDF_passes_errors_through_witness :
  Api.uploadPDF no_numbers (Rejected (mkError "TypeError" (lit "Failed to fetch")))
  = ([mkLog "Error uploading PDF:" (mkError "TypeError" (lit "Failed to fetch"))],
     Rejected (mkError "TypeError" (lit "Failed to fetch"))).
Proof.
  apply (uploadPDF_passes_errors_through no_numbers). by left.
Defined.

(** X3.  On a non-success response whose body is an object, every falsy
    [error] value ([null], [false], [0], [NaN], the empty string) gives
    the fallback message, as a missing field does. *)
Theorem uploadPDF_falsy_error_gives_fallback (number_to_string : float -> JsString)
    (response : Api.Response) (fields : list (JsString * Api.Json)) (v : Api.Json) :
  Api.ok response = false ->
  Api.json response = Resolved (Api.JObject fields) ->
  Api.field (lit "error") fields = Some v ->
  Api.truthy v = false ->
  Api.uploadPDF number_to_string (Resolved response)
  = ([mkLog "Error uploading PDF:" (mkError "Error" (lit "Failed to upload file"))],
     Rejected (mkError "Error" (lit "Failed to upload file"))).
Proof.
  intros Hok Hjson Hfield Hfalsy.
  unfold Api.uploadPDF, Api.try_block. rewrite Hok, Hjson.
  cbn [negb Api.get_error]. rewrite Hfield.
  unfold Api.error_or_fallback. by rewrite Hfalsy.
Qed.

Lemma uploadPDF_falsy_error_gives_fallback_witness :
  let response :=
    Api.mkResponse 500
      (Resolved (Api.JObject [(lit "error", Api.JBool false);
                              (lit "detail", Api.JString (lit "disk full"))])) in
  snd (Api.uploadPDF no_numbers (Resolved response))
  = Rejected (mkError "Error" (lit "Failed to upload file")).
Proof.
  intros response.
  by rewrite (uploadPDF_falsy_error_gives_fallback no_numbers response _
                (Api.JBool false) eq_refl eq_refl eq_refl eq_refl).
Defined.

Lemma join_with_strings (number_to_string : float -> JsString) (strings : list JsString) :
  Api.to_string number_to_string (Api.JArray (map Api.JString strings))
  = inr (Api.join_with (lit ",") strings).
Proof.
  cbn [Api.to_string].
  match goal with
  | |- match Api.collect ?parts with _ => _ end = _ =>
      assert (Api.collect parts = inr strings) as ->; [|done]
  end.
  induction strings as [|s strings IH]; [done|].
  cbn [map Api.collect Api.to_string]. by rewrite IH.
Qed.

(** X4.  A structured [error] value is not shown as it is.  An object
    makes [new Error] produce the message '[object Object]', whatever it
    holds, unless it has a key [toString] of its own: then the conversion
    throws, and the promise rejects with that [TypeError] instead of an
    [Error] made by [uploadPDF].  An array of strings becomes the strings
    joined by commas. *)
Theorem uploadPDF_structured_error_is_flattened (number_to_string : float -> JsString)
    (response : Api.Response) (fields : list (JsString * Api.Json)) (v : Api.Json) :
  Api.ok response = false ->
  Api.json response = Resolved (Api.JObject fields) ->
  Api.field (lit "error") fields = Some v ->
  exists error,
    Api.uploadPDF number_to_string (Resolved response)
    = ([mkLog "Error uploading PDF:" error], Rejected error)
    /\ (forall inner, v = Api.JObject inner ->
          Api.field (lit "toString") inner = None ->
          error = mkError "Error" (lit "[object Object]"))
    /\ (forall inner, v = Api.JObject inner ->
          Api.field (lit "toString") inner <> None ->
          error_name error = "TypeError")
    /\ (forall strings, v = Api.JArray (map Api.JString strings) ->
          error = mkError "Error" (Api.join_with (lit ",") strings)).
Proof.
  intros Hok Hjson Hfield.
  unfold Api.uploadPDF, Api.try_block. rewrite Hok, Hjson.
  cbn [negb Api.get_error]. rewrite Hfield.
  eexists. split; [reflexivity|]. cbn [Api.error_or_fallback].
  split; [|split].
  - intros inner -> Hnone. cbn [Api.truthy Api.to_string]. by rewrite Hnone.
  - intros inner -> Hsome. cbn [Api.truthy Api.to_string].
    by destruct (Api.field (lit "toString") inner).
  - intros strings ->. cbn [Api.truthy]. by rewrite join_with_strings.
Qed.

Lemma uploadPDF_structured_error_is_flattened_witness :
  let response items :=
    Api.mkResponse 422 (Resolved (Api.JObject [(lit "error", items)])) in
  (exists error,
     snd (Api.uploadPDF no_numbers
            (Resolved (response (Api.JArray [Api.JString (lit "too large");
                                             Api.JString (lit "not a PDF")]))))
     = Rejected error
     /\ error = mkError "Error" (lit "too large,not a PDF"))
  /\ (exists error,
        snd (Api.uploadPDF no_numbers
               (Resolved (response (Api.JObject [(lit "toString", Api.JNumber 1)]))))
        = Rejected error
        /\ error_name error = "TypeError").
Proof.
  intros response. split.
  - destruct (uploadPDF_structured_error_is_flattened no_numbers
                (response (Api.JArray [Api.JString (lit "too large");
                                       Api.JString (lit "not a PDF")])) _ _
                eq_refl eq_refl eq_refl) as (error & Hrun & _ & _ & Harray).
    exists error. split; [by rewrite Hrun|].
    apply (Harray [lit "too large"; lit "not a PDF"]). reflexivity.
  - destruct (uploadPDF_structured_error_is_flattened no_numbers
                (response (Api.JObject [(lit "toString", Api.JNumber 1)])) _ _
                eq_refl eq_refl eq_refl) as (error & Hrun & _ & Hthrows & _).
    exists error. split; [by rewrite Hrun|].
    apply (Hthrows _ eq_refl). discriminate.
Defined.

(** ** Zoom *)

(** X5.  The two zoom handlers of one render do not add up: each computes
    the new scale from the state it was rendered with, not from the state
    its updater receives, so applying the updaters of the same render one
    after the other leaves what the last one alone leaves. *)
Theorem zoom_updates_of_one_render_do_not_add_up (zoomStates prev : ZoomStates)
    (index : nat) :
  zoomInClick zoomStates index (zoomInClick zoomStates index prev)
    = zoomInClick zoomStates index prev
  /\ zoomOutClick zoomStates index (zoomOutClick zoomStates index prev)
     = zoomOutClick zoomStates index prev
  /\ zoomInClick zoomStates index (zoomOutClick zoomStates index prev)
     = zoomInClick zoomStates index prev
  /\ zoomOutClick zoomStates index (zoomInClick zoomStates index prev)
     = zoomOutClick zoomStates index prev.
Proof.
  unfold zoomInClick, zoomOutClick. repeat split; apply insert_insert_eq.
Qed.

(** X6.  Zoom updates of different diagrams commute: the order in which
    React applies them does not matter. *)
Theorem zoom_updates_of_different_diagrams_commute (zs zs' prev : ZoomStates)
    (i j : nat) :
  i <> j ->
  zoomInClick zs i (zoomOutClick zs' j prev) = zoomOutClick zs' j (zoomInClick zs i prev)
  /\ zoomInClick zs i (zoomInClick zs' j prev) = zoomInClick zs' j (zoomInClick zs i prev)
  /\ zoomOutClick zs i (zoomOutClick zs' j prev)
     = zoomOutClick zs' j (zoomOutClick zs i prev).
Proof.
  intros Hij.
  assert (key i <> key j) as Hkeys by (intros H; apply Hij, key_inj, H).
  unfold zoomInClick, zoomOutClick. repeat split; by apply insert_insert_ne.
Qed.

Lemma zoom_updates_of_different_diagrams_commute_witness :
  zoomInClick ∅ 0 (zoomOutClick ∅ 1 ∅) = zoomOutClick ∅ 1 (zoomInClick ∅ 0 ∅).
Proof.
  apply (zoom_updates_of_different_diagrams_commute ∅ ∅ ∅ 0 1). lia.
Defined.

Section ZoomTraces.

Variable host : Host.

Lemma run_app (c : Component) (events events' : list Event) :
  run host c (events ++ events') = run host (run host c events) events'.
Proof. unfold run. apply fold_left_app. Qed.

Lemma run_props (p : MindmapViewerProps) (events : list Event) :
  props (run host (mount host p) events) = p.
Proof.
  induction events as [|ev events IH] using rev_ind; [apply mount_props|].
  by rewrite run_snoc, step_props.
Qed.

Lemma zoom_step_entries (c : Component) (i : nat) :
  has_card c i = true ->
  zoomStates (step host c (ClickZoomIn i)) = zoomInClick (zoomStates c) i (zoomStates c)
  /\ zoomStates (step host c (ClickZoomOut i))
     = zoomOutClick (zoomStates c) i (zoomStates c).
Proof. intros Hcard. cbn [step]. by rewrite Hcard. Qed.

(** X7.  Every entry of the zoom state has been written by a zoom
    button: it sits under a key [mindmap-<i>], and its [mindmapId] is the
    key it is stored under.  The two updaters keep this, whatever state
    they are applied to, so it holds in every state the component
    reaches. *)
Theorem zoom_entries_carry_their_key :
  entries_keyed ∅
  /\ (forall (zs prev : ZoomStates) (i : nat),
        entries_keyed prev ->
        entries_keyed (zoomInClick zs i prev) /\ entries_keyed (zoomOutClick zs i prev))
  /\ forall (p : MindmapViewerProps) (events : list Event),
       entries_keyed (zoomStates (run host (mount host p) events)).
Proof.
  assert (forall (zs prev : ZoomStates) (i : nat),
            entries_keyed prev ->
            entries_keyed (zoomInClick zs i prev)
            /\ entries_keyed (zoomOutClick zs i prev)) as Hupdaters.
  { intros zs prev i Hprev. unfold zoomInClick, zoomOutClick.
    split; intros k z; (destruct (decide (k = key i)) as [->|Hne];
      [ rewrite lookup_insert_eq; intros [= <-]; split; [done | by exists i]
      | rewrite lookup_insert_ne by done; apply Hprev ]). }
  split; [intros k z; by rewrite lookup_empty|]. split; [exact Hupdaters|].
  intros p events.
  induction events as [|ev events IH] using rev_ind.
  - cbn [run fold_left]. rewrite mount_zoomStates. intros k z. by rewrite lookup_empty.
  - rewrite run_snoc. set (c := run host (mount host p) events) in *.
    destruct ev as [thrown | n outcome | i | i].
    + by rewrite timer_zoomStates.
    + by rewrite settle_zoomStates.
    + cbn [step]. destruct (has_card c i); [|exact IH].
      apply (Hupdaters (zoomStates c) (zoomStates c) i IH).
    + cbn [step]. destruct (has_card c i); [|exact IH].
      apply (Hupdaters (zoomStates c) (zoomStates c) i IH).
Qed.

End ZoomTraces.

Lemma scale_values_shown :
  Forall (fun x =>
            (exists q : Z, Number.round (x * 100)%float = Number.Int q
                           /\ (50 <= q <= 200)%Z /\ (q mod 10 = 0)%Z)
            /\ Nat.iter 15 zoomed_in x = 2%float
            /\ Nat.iter 15 zoomed_out x = 0.5%float)
         scale_values.
Proof.
  unfold scale_values.
  repeat (apply Forall_cons; split;
    [ split;
      [ eexists; split; [vm_compute; reflexivity|]; split; [lia | reflexivity]
      | split; vm_compute; reflexivity ]
    | ]).
  by apply Forall_nil.
Qed.

Lemma shown_of_value (x : float) :
  In x scale_values ->
  (exists q : Z, Number.round (x * 100)%float = Number.Int q
                 /\ (50 <= q <= 200)%Z /\ (q mod 10 = 0)%Z)
  /\ Nat.iter 15 zoomed_in x = 2%float
  /\ Nat.iter 15 zoomed_out x = 0.5%float.
Proof. intros Hx. exact (proj1 (List.Forall_forall _ _) scale_values_shown x Hx). Qed.

Lemma iter_fixed {A : Type} (f : A -> A) (x : A) (n : nat) :
  f x = x -> Nat.iter n f x = x.
Proof. intros Hx. induction n as [|n IH]; simpl; [done|]. by rewrite IH. Qed.

Lemma iter_saturated (f : float -> float) (top x : float) (n : nat) :
  f top = top -> Nat.iter 15 f x = top -> 15 <= n -> Nat.iter n f x = top.
Proof.
  intros Htop Hx Hn. replace n with ((n - 15) + 15) by lia.
  rewrite Nat.iter_add, Hx. by apply iter_fixed.
Qed.

Section ZoomClicks.

Variable host : Host.

Lemma clicks_iterate (click : nat -> Event) (f : float -> float) (i : nat) :
  (forall c, has_card c i = true ->
     zoomStates (step host c (click i))
     = <[key i := mkZoomState (f (currentScale (zoomStates c) i)) (key i)]>
         (zoomStates c)) ->
  forall (p : MindmapViewerProps) (events : list Event) (n : nat),
    let c := run host (mount host p) events in
    has_card c i = true ->
    currentScale (zoomStates (run host c (repeat (click i) n))) i
    = Nat.iter n f (currentScale (zoomStates c) i)
    /\ (0 < n ->
        zoomStates (run host c (repeat (click i) n)) !! key i
        = Some (mkZoomState (Nat.iter n f (currentScale (zoomStates c) i)) (key i))).
Proof.
  intros Hclick p events n c Hcard.
  induction n as [|n [IH _]]; [split; [done | lia]|].
  cbn [repeat]. rewrite repeat_cons, run_snoc.
  set (c' := run host c (repeat (click i) n)) in *.
  assert (c' = run host (mount host p) (events ++ repeat (click i) n)) as Hc'
    by (unfold c', c; by rewrite run_app).
  assert (has_card c' i = true) as Hcard'.
  { unfold has_card in *. rewrite Hc', run_props.
    unfold c in Hcard. by rewrite run_props in Hcard. }
  assert (levels_ok (zoomStates (step host c' (click i)))) as Hlevels.
  { rewrite Hc', <- run_snoc. apply run_levels. }
  assert (zoomStates (step host c' (click i)) !! key i
          = Some (mkZoomState (Nat.iter (S n) f (currentScale (zoomStates c) i)) (key i)))
    as Hstored.
  { rewrite (Hclick c' Hcard'), lookup_insert_eq, IH. done. }
  split; [|done].
  by rewrite (currentScale_stored _ _ _ Hlevels Hstored).
Qed.

Lemma zoom_in_step (i : nat) (c : Component) :
  has_card c i = true ->
  zoomStates (step host c (ClickZoomIn i))
  = <[key i := mkZoomState (zoomed_in (currentScale (zoomStates c) i)) (key i)]>
      (zoomStates c).
Proof. intros Hcard. cbn [step]. by rewrite Hcard. Qed.

Lemma zoom_out_step (i : nat) (c : Component) :
  has_card c i = true ->
  zoomStates (step host c (ClickZoomOut i))
  = <[key i := mkZoomState (zoomed_out (currentScale (zoomStates c) i)) (key i)]>
      (zoomStates c).
Proof. intros Hcard. cbn [step]. by rewrite Hcard. Qed.

(** X8.  The percentage a card shows is always a whole multiple of ten
    between 50 and 200: the rounding in the label hides what the repeated
    additions of 0.1 leave in the stored double. *)
Theorem percentage_is_a_multiple_of_ten (p : MindmapViewerProps)
    (events : list Event) (index : nat) :
  exists q : Z,
    percentage (zoomStates (run host (mount host p) events)) index = Number.Int q
    /\ (50 <= q <= 200)%Z /\ (q mod 10 = 0)%Z.
Proof.
  unfold percentage.
  exact (proj1 (shown_of_value _
                  (currentScale_level _ index (run_levels host p events)))).
Qed.

(** X9.  Zooming in and then out again brings the card back to the
    percentage it showed, unless it showed 200; zooming out and then in
    brings it back unless it showed 50. *)
Theorem zoom_in_and_out_restores_percentage (p : MindmapViewerProps)
    (events : list Event) (index : nat) (q : Z) :
  let c := run host (mount host p) events in
  has_card c index = true ->
  percentage (zoomStates c) index = Number.Int q ->
  ((q < 200)%Z ->
     percentage (zoomStates (run host c [ClickZoomIn index; ClickZoomOut index])) index
     = Number.Int q)
  /\ ((50 < q)%Z ->
     percentage (zoomStates (run host c [ClickZoomOut index; ClickZoomIn index])) index
     = Number.Int q).
Proof.
  intros c Hcard Hq.
  assert (levels_ok (zoomStates c)) as Hc by apply run_levels.
  pose proof (currentScale_level _ index Hc) as Hx.
  set (x := currentScale (zoomStates c) index) in *.
  destruct (shown_of_value x Hx) as [(q0 & Hq0 & Hrange & Hten) _].
  unfold percentage in Hq. fold x in Hq. rewrite Hq0 in Hq.
  injection Hq as ->.
  destruct (level_ok_of_value x Hx) as (Hout & Hin & _ & _ & _ & q1 & Hq1 & Hq_out & Hq_in).
  rewrite Hq0 in Hq1. injection Hq1 as <-.
  assert (forall first second f g,
            (forall c, has_card c index = true ->
               zoomStates (step host c (first index))
               = <[key index := mkZoomState (f (currentScale (zoomStates c) index))
                                  (key index)]> (zoomStates c)) ->
            (forall c, has_card c index = true ->
               zoomStates (step host c (second index))
               = <[key index := mkZoomState (g (currentScale (zoomStates c) index))
                                  (key index)]> (zoomStates c)) ->
            currentScale (zoomStates (run host c [first index; second index])) index
            = g (f x)) as Htwo.
  { intros first second f g Hfirst Hsecond.
    destruct (clicks_iterate first f index Hfirst p events 1 Hcard) as [Hone _].
    cbn [repeat Nat.iter nat_rect] in Hone. fold c x in Hone.
    assert (run host c [first index] = run host (mount host p) (events ++ [first index]))
      as Hreach by (unfold c; by rewrite run_app).
    assert (has_card (run host c [first index]) index = true) as Hcard1.
    { unfold has_card in *. rewrite Hreach, run_props.
      unfold c in Hcard. by rewrite run_props in Hcard. }
    pose proof (clicks_iterate second g index Hsecond p (events ++ [first index]) 1)
      as Hnext.
    cbn zeta in Hnext. rewrite <- Hreach in Hnext.
    destruct (Hnext Hcard1) as [Hboth _].
    cbn [repeat Nat.iter nat_rect] in Hboth. rewrite Hone in Hboth.
    change (run host (run host c [first index]) [second index])
      with (run host c [first index; second index]) in Hboth.
    exact Hboth. }
  split; intros Hbound; unfold percentage.
  - rewrite (Htwo ClickZoomIn ClickZoomOut zoomed_in zoomed_out
               (fun c => zoom_in_step index c) (fun c => zoom_out_step index c)).
    destruct (level_ok_of_value _ Hin) as (_ & _ & _ & _ & _ & q2 & Hq2 & Hq2_out & _).
    rewrite Hq_in in Hq2. injection Hq2 as <-.
    rewrite Hq2_out. f_equal.
    assert (exists k, q = 10 * k)%Z as [k ->]
      by (exists (q / 10)%Z; apply Z.div_exact; [lia | done]).
    lia.
  - rewrite (Htwo ClickZoomOut ClickZoomIn zoomed_out zoomed_in
               (fun c => zoom_out_step index c) (fun c => zoom_in_step index c)).
    destruct (level_ok_of_value _ Hout) as (_ & _ & _ & _ & _ & q2 & Hq2 & _ & Hq2_in).
    rewrite Hq_out in Hq2. injection Hq2 as <-.
    rewrite Hq2_in. f_equal.
    assert (exists k, q = 10 * k)%Z as [k ->]
      by (exists (q / 10)%Z; apply Z.div_exact; [lia | done]).
    lia.
Qed.

(** X10.  The zoom saturates: after fifteen or more clicks on the zoom-in
    button of a card, whatever went before, the stored scale is exactly 2
    and the card shows 200; after fifteen or more clicks on its zoom-out
    button the stored scale is exactly 0.5 and the card shows 50. *)
Theorem fifteen_clicks_reach_the_limit (p : MindmapViewerProps)
    (events : list Event) (index n : nat) :
  let c := run host (mount host p) events in
  has_card c index = true ->
  15 <= n ->
  let inn := run host c (repeat (ClickZoomIn index) n) in
  let out := run host c (repeat (ClickZoomOut index) n) in
  zoomStates inn !! key index = Some (mkZoomState 2%float (key index))
  /\ percentage (zoomStates inn) index = Number.Int 200
  /\ zoomStates out !! key index = Some (mkZoomState 0.5%float (key index))
  /\ percentage (zoomStates out) index = Number.Int 50.
Proof.
  intros c Hcard Hn inn out.
  assert (levels_ok (zoomStates c)) as Hc by apply run_levels.
  destruct (shown_of_value _ (currentScale_level _ index Hc)) as (_ & Hup & Hdown).
  destruct (clicks_iterate ClickZoomIn zoomed_in index
              (fun c => zoom_in_step index c) p events n Hcard) as [Hin_scale Hin].
  destruct (clicks_iterate ClickZoomOut zoomed_out index
              (fun c => zoom_out_step index c) p events n Hcard) as [Hout_scale Hout].
  fold c in Hin_scale, Hin, Hout_scale, Hout. fold inn in Hin_scale, Hin.
  fold out in Hout_scale, Hout.
  rewrite (iter_saturated zoomed_in 2%float _ n eq_refl Hup Hn) in Hin_scale, Hin.
  rewrite (iter_saturated zoomed_out 0.5%float _ n eq_refl Hdown Hn) in Hout_scale, Hout.
  unfold percentage. rewrite Hin_scale, Hout_scale.
  split; [apply Hin; lia|]. split; [vm_compute; reflexivity|].
  split; [apply Hout; lia|]. vm_compute; reflexivity.
Qed.

End ZoomClicks.

Lemma zoom_in_and_out_restores_percentage_witness :
  let c := run sample_host (mount sample_host (mkProps (Some [sample_mindmap]) None)) [] in
  percentage (zoomStates (run sample_host c [ClickZoomIn 0; ClickZoomOut 0])) 0
  = Number.Int 100.
Proof.
  intros c.
  assert (has_card c 0 = true) as Hcard by reflexivity.
  assert (percentage (zoomStates c) 0 = Number.Int 100) as Hshown
    by (vm_compute; reflexivity).
  apply (zoom_in_and_out_restores_percentage sample_host _ [] 0 100 Hcard Hshown).
  lia.
Defined.

Lemma fifteen_clicks_reach_the_limit_witness :
  let c := run sample_host (mount sample_host (mkProps (Some [sample_mindmap]) None))
             [ClickZoomOut 0] in
  zoomStates (run sample_host c (repeat (ClickZoomIn 0) 15)) !! key 0
  = Some (mkZoomState 2%float (key 0)).
Proof.
  intros c.
  assert (has_card c 0 = true) as Hcard by reflexivity.
  apply (fifteen_clicks_reach_the_limit sample_host _ [ClickZoomOut 0] 0 15 Hcard).
  lia.
Defined.

(** ** What the callbacks leave behind *)

Section Pending.

Variable host : Host.

Lemma step_uncaught (c : Component) (ev : Event) :
  uncaught (step host c ev) = uncaught c.
Proof.
  destruct ev as [thrown | n outcome | i | i]; cbn [step].
  - destruct (timers c) as [|t rest]; [done|].
    unfold timer_callback, try_catch, timer_body.
    destruct (closure_mindmaps (callback t) !! index (callback t)); [|done].
    by destruct thrown.
  - destruct (rendering c !! n); [|done]. by destruct outcome.
  - by destruct (has_card c i).
  - by destruct (has_card c i).
Qed.

(** X11.  Once the component is mounted, no timer callback and no
    promise handler lets an exception or a rejection escape: whatever
    happens, nothing is left uncaught.  (With the [mindmaps] prop absent,
    the one uncaught error is the [TypeError] of the effect itself.) *)
Theorem callbacks_let_nothing_escape (p : MindmapViewerProps) (events : list Event) :
  uncaught (run host (mount host p) events) = uncaught (mount host p)
  /\ match mindmaps p with
     | Some _ => uncaught (mount host p) = []
     | None => exists e, error_name e = "TypeError" /\ uncaught (mount host p) = [e]
     end.
Proof.
  split.
  - induction events as [|ev events IH] using rev_ind; [done|].
    by rewrite run_snoc, step_uncaught.
  - unfold mount, effect, containerRef.
    destruct (mindmaps p) as [[|m ms]|];
      [done | | eexists; split; [|reflexivity]; reflexivity].
    cbn [length Nat.ltb Nat.leb]. done.
Qed.

(** Only the settling of a diagram's own render call touches the
    diagram. *)
Lemma step_diagram_frame (c : Component) (ev : Event) (j : nat) :
  (forall n k outcome, ev = RenderSettles n outcome -> rendering c !! n = Some k ->
     index k <> j) ->
  diagrams (step host c ev) !! j = diagrams c !! j.
Proof.
  intros Hother. destruct ev as [thrown | n outcome | i | i]; cbn [step].
  - destruct (timers c) as [|t rest]; [done|].
    unfold timer_callback, try_catch, timer_body.
    destruct (closure_mindmaps (callback t) !! index (callback t)); [|done].
    by destruct thrown.
  - destruct (rendering c !! n) as [k|] eqn:Hk; [|done].
    pose proof (Hother n k outcome eq_refl Hk) as Hne.
    destruct outcome; cbn; by apply list_lookup_insert_ne.
  - by destruct (has_card c i).
  - by destruct (has_card c i).
Qed.

Lemma step_diagrams_length (c : Component) (ev : Event) :
  length (diagrams (step host c ev)) = length (diagrams c).
Proof.
  destruct ev as [thrown | n outcome | i | i]; cbn [step].
  - destruct (timers c) as [|t rest]; [done|].
    unfold timer_callback, try_catch, timer_body.
    destruct (closure_mindmaps (callback t) !! index (callback t)); [|done].
    by destruct thrown.
  - destruct (rendering c !! n) as [k|]; [|done].
    destruct outcome; cbn; by rewrite length_insert.
  - by destruct (has_card c i).
  - by destruct (has_card c i).
Qed.

Lemma elem_of_map {A B : Type} (f : A -> B) (l : list A) (y : B) :
  y ∈ map f l <-> exists x, y = f x /\ x ∈ l.
Proof.
  rewrite list_elem_of_In, in_map_iff. split.
  - intros (x & <- & Hx). exists x. by rewrite list_elem_of_In.
  - intros (x & -> & Hx). exists x. by rewrite <- list_elem_of_In.
Qed.

Lemma map_sublist {A B : Type} (f : A -> B) (l k : list A) :
  l `sublist_of` k -> map f l `sublist_of` map f k.
Proof. induction 1; simpl; by constructor. Qed.

(** The callbacks still to run only become fewer. *)
Lemma step_pending (c : Component) (ev : Event) :
  pending_indices (step host c ev) ⊆+ pending_indices c.
Proof.
  unfold pending_indices.
  destruct ev as [thrown | n outcome | i | i]; cbn [step].
  - destruct (timers c) as [|t rest] eqn:Hqueue; [by rewrite Hqueue|].
    unfold timer_callback, try_catch, timer_body.
    destruct (closure_mindmaps (callback t) !! index (callback t));
      [|by apply submseteq_cons].
    destruct thrown; cbn; [by apply submseteq_cons|].
    rewrite map_app. cbn [map].
    apply Permutation_submseteq.
    rewrite app_assoc. by rewrite <- Permutation_cons_append.
  - destruct (rendering c !! n) as [k|]; [|reflexivity].
    assert (map (fun t => index (callback t)) (timers c)
              ++ map index (delete n (rendering c))
            ⊆+ map (fun t => index (callback t)) (timers c) ++ map index (rendering c))
      as Hdeleted.
    { apply submseteq_skips_l, sublist_submseteq, map_sublist, sublist_delete. }
    by destruct outcome.
  - destruct (has_card c i); reflexivity.
  - destruct (has_card c i); reflexivity.
Qed.

Lemma settle_pending (c : Component) (n : nat) (k : Closure)
    (outcome : Settled RenderResult) :
  rendering c !! n = Some k ->
  pending_indices c ≡ₚ index k :: pending_indices (step host c (RenderSettles n outcome)).
Proof.
  intros Hk. unfold pending_indices. cbn [step]. rewrite Hk.
  assert (map index (rendering c) ≡ₚ index k :: map index (delete n (rendering c)))
    as Hrendering.
  { rewrite (delete_Permutation _ _ _ Hk) at 1. done. }
  rewrite Hrendering at 1. rewrite <- Permutation_middle.
  by destruct outcome.
Qed.

Lemma submseteq_NoDup {A : Type} (l k : list A) : l ⊆+ k -> NoDup k -> NoDup l.
Proof.
  intros [k' Hk]%submseteq_Permutation. rewrite Hk.
  by intros [? _]%NoDup_app.
Qed.

Lemma mount_pending (p : MindmapViewerProps) : NoDup (pending_indices (mount host p)).
Proof.
  unfold pending_indices.
  rewrite (proj2 (mount_render_calls host p)), app_nil_r.
  destruct p as [[ms|] t].
  - destruct (decide (ms = [])) as [->|Hms]; [constructor|].
    rewrite (mount_timers host ms t Hms), map_map.
    cbn [timer_for callback index]. rewrite map_id. apply NoDup_seq.
  - constructor.
Qed.

Lemma run_pending (p : MindmapViewerProps) (events : list Event) :
  NoDup (pending_indices (run host (mount host p) events)).
Proof.
  induction events as [|ev events IH] using rev_ind; [apply mount_pending|].
  rewrite run_snoc. eapply submseteq_NoDup; [apply step_pending | exact IH].
Qed.

(** A diagram no callback is pending for keeps its content. *)
Lemma not_pending_final (c : Component) (events : list Event) (j : nat) :
  j ∉ pending_indices c ->
  diagrams (run host c events) !! j = diagrams c !! j.
Proof.
  revert c. induction events as [|ev events IH]; intros c Hj; [done|].
  change (run host c (ev :: events)) with (run host (step host c ev) events).
  rewrite IH.
  - apply step_diagram_frame. intros n k outcome _ Hk <-.
    apply Hj. unfold pending_indices. apply elem_of_app. right.
    apply elem_of_map. exists k. split; [done|].
    by eapply list_elem_of_lookup_2.
  - intros Hin. apply Hj. eapply elem_of_submseteq; [exact Hin | apply step_pending].
Qed.

Lemma run_pending_NoDup (c : Component) (events : list Event) :
  NoDup (pending_indices c) -> NoDup (pending_indices (run host c events)).
Proof.
  intros Hc. induction events as [|ev events IH] using rev_ind; [done|].
  rewrite run_snoc. eapply submseteq_NoDup; [apply step_pending | exact IH].
Qed.

(** A diagram a callback is pending for still has the content it had. *)
Lemma pending_untouched (c : Component) (events : list Event) (j : nat) :
  NoDup (pending_indices c) ->
  j ∈ pending_indices (run host c events) ->
  diagrams (run host c events) !! j = diagrams c !! j.
Proof.
  intros Hc.
  induction events as [|ev events IH] using rev_ind; [done|].
  rewrite run_snoc. set (c' := run host c events) in *.
  intros Hj.
  rewrite <- IH by (eapply elem_of_submseteq; [exact Hj | apply step_pending]).
  apply step_diagram_frame. intros n k outcome -> Hk <-.
  pose proof (run_pending_NoDup c events Hc) as Hnodup. fold c' in Hnodup.
  rewrite (settle_pending c' n k outcome Hk) in Hnodup.
  by apply NoDup_cons in Hnodup as [Hfresh _].
Qed.

(** X12.  The callbacks that are scheduled write each diagram element
    once.  Take any state in which no two pending callbacks belong to the
    same element (after mounting there is one timer per element).  Once
    the render call of a diagram has settled, its content stays as it is
    through every later timer, settlement and zoom click: only another
    run of the effect, for a new [mindmaps] array, schedules callbacks
    that write it again. *)
Theorem settled_diagram_is_final (c : Component) (n : nat) (k : Closure)
    (outcome : Settled RenderResult) (later : list Event) :
  NoDup (pending_indices c) ->
  rendering c !! n = Some k ->
  let c' := step host c (RenderSettles n outcome) in
  diagrams (run host c' later) !! index k = diagrams c' !! index k.
Proof.
  intros Hnodup Hk c'. apply not_pending_final.
  rewrite (settle_pending c n k outcome Hk) in Hnodup.
  by apply NoDup_cons in Hnodup as [Hfresh _].
Qed.

(** X13.  A callback does not touch its element before its render call
    settles.  From any state in which no two pending callbacks belong to
    the same element: as long as the timer or the render call of a diagram
    is pending, its element shows what it showed when the callbacks were
    scheduled (after mounting, the loading spinner), whatever else
    happens. *)
Theorem pending_diagram_is_untouched (c : Component) (events : list Event) (j : nat) :
  NoDup (pending_indices c) ->
  j ∈ pending_indices (run host c events) ->
  diagrams (run host c events) !! j = diagrams c !! j
  /\ length (diagrams (run host c events)) = length (diagrams c).
Proof.
  intros Hnodup Hj. split; [by apply pending_untouched|].
  clear. induction events as [|ev events IH] using rev_ind; [done|].
  by rewrite run_snoc, step_diagrams_length.
Qed.

(** X14.  When [mermaid.render] throws instead of returning a promise,
    the timer callback makes the call, logs the exception under
    'Mermaid general error:', and that is all: nothing escapes, no handler
    is registered and no element is touched, so no error panel appears.
    If no other callback is pending for the element, it keeps what it
    shows (after mounting, the spinner) through every later timer,
    settlement and zoom click. *)
Theorem thrown_render_call_is_only_logged (c : Component) (timer : Timer)
    (rest : list Timer) (m : Mindmap) (e : JsError) :
  timers c = timer :: rest ->
  closure_mindmaps (callback timer) !! index (callback timer) = Some m ->
  let c' := step host c (TimerFires (Some e)) in
  console c' = console c ++ [mkLog "Mermaid general error:" e]
  /\ uncaught c' = uncaught c
  /\ render_calls c' = render_calls c ++ [(key (index (callback timer)), code m)]
  /\ rendering c' = rendering c
  /\ timers c' = rest
  /\ diagrams c' = diagrams c
  /\ (NoDup (pending_indices c) ->
      forall later,
        diagrams (run host c' later) !! index (callback timer)
        = diagrams c !! index (callback timer)).
Proof.
  intros Htimers Hm c'.
  assert (c' = console_error "Mermaid general error:" e
                 (mkComponent (props c) (zoomStates c) (diagrams c) rest (rendering c)
                    (render_calls c ++ [(key (index (callback timer)), code m)])
                    (console c) (uncaught c) (unmounted c))) as Hc'.
  { unfold c'. cbn [step]. rewrite Htimers.
    unfold timer_callback, try_catch, timer_body. by rewrite Hm. }
  repeat (split; [by rewrite Hc'|]).
  intros Hnodup later. rewrite not_pending_final; [by rewrite Hc'|].
  unfold pending_indices in Hnodup |- *. rewrite Htimers in Hnodup.
  cbn [map app] in Hnodup. apply NoDup_cons in Hnodup as [Hfresh _].
  by rewrite Hc'.
Qed.

Lemma mount_spinners (ms : list Mindmap) (t : option float) (j : nat) :
  NeonBorder_plain host -> j < length ms ->
  diagrams (mount host (mkProps (Some ms) t)) !! j = Some spinner.
Proof.
  intros Hplain Hj.
  assert (ms <> []) as Hms by (intros ->; simpl in Hj; lia).
  rewrite (mount_state host ms t Hplain Hms). cbn [diagrams].
  destruct (lookup_lt_is_Some_2 ms j Hj) as [m Hm].
  change (map (fun _ : Mindmap => spinner) ms) with ((fun _ : Mindmap => spinner) <$> ms).
  by rewrite list_lookup_fmap, Hm.
Qed.

End Pending.

Lemma settled_diagram_is_final_witness :
  let p := mkProps (Some [sample_mindmap]) None in
  let c := run sample_host (mount sample_host p) [TimerFires None] in
  let c' := step sample_host c
              (RenderSettles 0 (Resolved (mkRenderResult sample_markup))) in
  rendering c !! 0 = Some (mkClosure 0 [sample_mindmap] ∅)
  /\ diagrams (run sample_host c' [ClickZoomIn 0; TimerFires None]) !! 0
     = diagrams c' !! 0.
Proof.
  intros p c c'.
  assert (rendering c !! 0 = Some (mkClosure 0 [sample_mindmap] ∅)) as Hk
    by (vm_compute; reflexivity).
  assert (NoDup (pending_indices c)) as Hnodup by apply run_pending.
  split; [exact Hk|].
  apply (settled_diagram_is_final sample_host c 0 _
           (Resolved (mkRenderResult sample_markup)) [ClickZoomIn 0; TimerFires None]
           Hnodup Hk).
Defined.

Lemma pending_diagram_is_untouched_witness :
  let c := mount sample_host (mkProps (Some [sample_mindmap]) None) in
  let events := [ClickZoomIn 0; TimerFires None] in
  0 ∈ pending_indices (run sample_host c events)
  /\ diagrams c !! 0 = Some spinner
  /\ diagrams (run sample_host c events) !! 0 = Some spinner.
Proof.
  intros c events.
  assert (NoDup (pending_indices c)) as Hnodup by apply mount_pending.
  assert (0 ∈ pending_indices (run sample_host c events)) as Hpending
    by (vm_compute; apply list_elem_of_here).
  assert (diagrams c !! 0 = Some spinner) as Hspinner by reflexivity.
  split; [exact Hpending|]. split; [exact Hspinner|].
  destruct (pending_diagram_is_untouched sample_host c events 0 Hnodup Hpending)
    as [Hsame _].
  by rewrite Hsame.
Defined.

Lemma thrown_render_call_is_only_logged_witness :
  let p := mkProps (Some [sample_mindmap]) None in
  let e := mkError "Error" (lit "Diagram type not registered") in
  let c := mount sample_host p in
  let c' := step sample_host c (TimerFires (Some e)) in
  console c' = [mkLog "Mermaid general error:" e]
  /\ rendering c' = []
  /\ diagrams (run sample_host c' [ClickZoomIn 0]) !! 0 = Some spinner.
Proof.
  intros p e c c'.
  assert (NoDup (pending_indices c)) as Hnodup by apply mount_pending.
  destruct (thrown_render_call_is_only_logged sample_host c
              (timer_for [sample_mindmap] ∅ 0) [] sample_mindmap e eq_refl eq_refl)
    as (Hconsole & _ & _ & Hrendering & _ & _ & Hstays).
  split; [exact Hconsole|]. split; [exact Hrendering|].
  exact (Hstays Hnodup [ClickZoomIn 0]).
Defined.

(** ** What the styling of a rendered diagram changes *)

Section Erase.

Variable k : ElemData -> ElemData.

Lemma erase_map_data (g : ElemData -> ElemData) (n : Node) :
  (forall e, k (g e) = k e) -> erase k (map_data g n) = erase k n.
Proof. intros Hg. destruct n as [e children|]; [|done]. cbn. by rewrite Hg. Qed.

Lemma erase_update_first (p : ElemData -> bool) (f : Node -> Node) :
  (forall m, erase k (f m) = erase k m) ->
  forall n n', update_first p f n = Some n' -> erase k n' = erase k n.
Proof.
  intros Hf.
  induction n as [data | e children IH] using Node_forest_ind; intros n'; [done|].
  rewrite update_first_Elem. destruct (p e).
  { intros [= <-]. apply Hf. }
  destruct (update_first_in p f children) as [children'|] eqn:Hin; [|done].
  intros [= <-]. cbn [erase]. f_equal.
  revert children' Hin.
  induction IH as [|c cs Hc _ IHcs]; intros children'; [done|].
  cbn [update_first_in].
  destruct (update_first p f c) as [c'|] eqn:Hfirst.
  - intros [= <-]. cbn [map]. by rewrite (Hc _ eq_refl).
  - destruct (update_first_in p f cs) as [cs'|]; [|done].
    intros [= <-]. cbn [map]. by rewrite (IHcs _ eq_refl).
Qed.

Lemma erase_update_first_in (p : ElemData -> bool) (f : Node -> Node)
    (l l' : list Node) :
  (forall m, erase k (f m) = erase k m) ->
  update_first_in p f l = Some l' ->
  map (erase k) l' = map (erase k) l.
Proof.
  intros Hf. revert l'.
  induction l as [|c cs IH]; intros l'; [done|].
  cbn [update_first_in].
  destruct (update_first p f c) as [c'|] eqn:Hfirst.
  - intros [= <-]. cbn [map]. by rewrite (erase_update_first p f Hf _ _ Hfirst).
  - destruct (update_first_in p f cs) as [cs'|]; [|done].
    intros [= <-]. cbn [map]. by rewrite (IH _ eq_refl).
Qed.

Lemma erase_update_descendants (p : ElemData -> bool) (f : Node -> Node) :
  (forall m, erase k (f m) = erase k m) ->
  forall n, erase k (update_descendants p f n) = erase k n.
Proof.
  intros Hf.
  induction n as [data | e children IH] using Node_forest_ind; [done|].
  cbn [update_descendants erase]. f_equal.
  rewrite map_map. apply map_ext_Forall.
  eapply Forall_impl; [exact IH|]. intros c Hc. cbn beta zeta in *.
  destruct (update_descendants p f c) as [ce cs|]; [|done].
  destruct (p ce); [by rewrite Hf|done].
Qed.

Lemma erase_round_corners (n : Node) :
  (forall name v e, k (set_attribute name v e) = k e) ->
  erase k (round_corners n) = erase k n.
Proof.
  intros keeps_attributes. destruct n as [e children|]; [|done]. unfold round_corners.
  destruct (update_first_in _ _ children) as [children'|] eqn:Hin; [|done].
  cbn [erase]. f_equal.
  eapply erase_update_first_in; [|exact Hin].
  intros m. apply erase_map_data. intros r. by rewrite !keeps_attributes.
Qed.

Lemma erase_decorate (zs : ZoomStates) (i : nat) (n : Node) :
  (forall name v e, k (set_attribute name v e) = k e) ->
  (forall name v e, k (set_style name v e) = k e) ->
  erase k (decorate zs i n) = erase k n.
Proof.
  intros keeps_attributes keeps_style. unfold decorate.
  rewrite erase_update_descendants
    by (intros m; by apply erase_round_corners).
  rewrite erase_update_descendants.
  - apply erase_map_data. intros e. unfold style_svg. by rewrite !keeps_style.
  - intros m. apply erase_map_data. intros e. unfold style_text.
    by rewrite !keeps_style.
Qed.

Lemma matches_erased (sel : Selector) (above : list ElemData) (e : ElemData) :
  (forall s e, matches_simple s (k e) = matches_simple s e) ->
  matches sel (map k above) (k e) = matches sel above e.
Proof.
  intros keeps_selectors. destruct sel as [alternatives | ancestor target]; cbn [matches].
  - apply existsb_ext_Forall, Forall_forall. intros s _. apply keeps_selectors.
  - rewrite keeps_selectors. f_equal. rewrite existsb_map.
    apply existsb_ext_Forall, Forall_forall. intros a _. apply keeps_selectors.
Qed.

Lemma select_erased (sel : Selector) (above : list ElemData) (n : Node) :
  (forall s e, matches_simple s (k e) = matches_simple s e) ->
  select sel (map k above) (erase k n) = map (erase k) (select sel above n).
Proof.
  intros keeps_selectors. revert above.
  induction n as [data | e children IH] using Node_forest_ind; intros above; [done|].
  cbn [erase select]. rewrite matches_erased, map_app by done. f_equal.
  - by destruct (matches sel above e).
  - clear -IH. induction IH as [|c cs Hc _ IHcs]; [done|].
    cbn [map flat_map]. rewrite map_app, <- IHcs. f_equal.
    apply (Hc (e :: above)).
Qed.

Lemma flat_map_select_erased (sel : Selector) (above : list ElemData) (l : list Node) :
  (forall s e, matches_simple s (k e) = matches_simple s e) ->
  flat_map (select sel (map k above)) (map (erase k) l)
  = map (erase k) (flat_map (select sel above) l).
Proof.
  intros keeps_selectors. induction l as [|c cs IH]; [done|].
  cbn [map flat_map]. by rewrite map_app, select_erased, IH.
Qed.

End Erase.

Lemma no_match_no_update (p : ElemData -> bool) (f : Node -> Node) (t : string) :
  (forall e, p e = true -> tag e = t) ->
  forall n, has_tag t n = false -> update_first p f n = None.
Proof.
  intros Hp.
  induction n as [data | e children IH] using Node_forest_ind; [done|].
  cbn [has_tag]. intros [Hroot Hchildren]%orb_false_elim.
  rewrite update_first_Elem.
  destruct (p e) eqn:Hpe.
  { apply Hp in Hpe. rewrite Hpe, String.eqb_refl in Hroot. done. }
  apply existsb_false_Forall in Hchildren.
  assert (update_first_in p f children = None) as ->; [|done].
  induction IH as [|c cs Hc _ IHcs]; [done|].
  apply Forall_cons in Hchildren as [Hc' Hcs'].
  cbn [update_first_in]. by rewrite (Hc Hc'), (IHcs Hcs').
Qed.


Lemma update_first_in_none (p : ElemData -> bool) (f : Node -> Node) (t : string)
    (l : list Node) :
  (forall e, p e = true -> tag e = t) ->
  Forall (fun n => has_tag t n = false) l ->
  update_first_in p f l = None.
Proof.
  intros Hp Hl.
  induction Hl as [|c cs Hc _ IH]; [done|].
  cbn [update_first_in]. by rewrite (no_match_no_update p f t Hp c Hc), IH.
Qed.

Lemma matches_tag (t : string) (e : ElemData) :
  matches (Group [ByTag t]) [] e = true -> tag e = t.
Proof.
  cbn [matches existsb matches_simple]. rewrite orb_false_r.
  apply String.eqb_eq.
Qed.

Lemma text_font_after_style (e : ElemData) (children : list Node) :
  has_text_font (Elem (style_text e) children).
Proof.
  unfold has_text_font, style_text. split.
  - apply get_style_set_style_eq.
  - rewrite get_style_set_style_ne by discriminate. apply get_style_set_style_eq.
Qed.

Lemma unattributed_selectors (s : Simple) (e : ElemData) :
  matches_simple s (unattributed e) = matches_simple s e.
Proof. by destruct s. Qed.

Lemma has_text_font_unattributed (n : Node) :
  has_text_font (erase unattributed n) <-> has_text_font n.
Proof. by destruct n. Qed.

(** After the first pass every [text] element below the root has the
    font. *)
Lemma texts_styled (n : Node) :
  Forall has_text_font
    (flat_map (select (Group [ByTag "text"]) [])
       (children_of
          (update_descendants (matches (Group [ByTag "text"]) [])
             (map_data style_text) n))).
Proof.
  induction n as [data | e children IH] using Node_forest_ind; [constructor|].
  cbn [update_descendants children_of].
  induction IH as [|c cs Hc _ IHcs]; [constructor|].
  cbn [map flat_map]. apply Forall_app. split; [|exact IHcs].
  cbn zeta.
  destruct (update_descendants _ _ c) as [ce ccs|] eqn:Hupdated; [|constructor].
  cbn [children_of] in Hc.
  destruct (matches (Group [ByTag "text"]) [] ce) eqn:Hce.
  - cbn [map_data select].
    rewrite (flat_map_select_group_above _ _ []).
    apply Forall_app. split; [|exact Hc].
    destruct (matches _ _ (style_text ce)); [|constructor].
    apply Forall_cons. split; [apply text_font_after_style | constructor].
  - cbn [select]. rewrite Hce. cbn [app].
    by rewrite (flat_map_select_group_above _ _ []).
Qed.

Section Content.

Variable host : Host.

(** X15.  After the styling every [text] element below the rendered
    [svg] has the font size 14px and the sans-serif font family,
    whatever inline style the markup gave it: the later pass over the
    [.node] elements does not undo it. *)
Theorem every_text_element_gets_the_font (zs : ZoomStates) (i : nat) (e : ElemData)
    (children : list Node) (above : list ElemData) (found : Node) :
  found ∈ querySelectorAll (Group [ByTag "text"]) above (decorate zs i (Elem e children)) ->
  has_text_font found.
Proof.
  unfold decorate. cbn [map_data].
  set (texts := update_descendants (matches (Group [ByTag "text"]) [])
                  (map_data style_text) (Elem (style_svg zs i e) children)).
  set (final := update_descendants (matches (Group [ByClass "node"]) [])
                  round_corners texts).
  assert (erase unattributed final = erase unattributed texts) as Hsame.
  { apply erase_update_descendants. intros m. by apply erase_round_corners. }
  assert (exists d cs, final = Elem d cs) as (d & cs & Hfinal) by (by eexists _, _).
  assert (exists d' cs', texts = Elem d' cs') as (d' & cs' & Htexts)
    by (by eexists _, _).
  pose proof (texts_styled (Elem (style_svg zs i e) children)) as Hstyled.
  fold texts in Hstyled. rewrite Htexts in Hstyled. cbn [children_of] in Hstyled.
  rewrite Hfinal, Htexts in Hsame. cbn [erase] in Hsame.
  injection Hsame as _ _ _ _ Hchildren.
  rewrite Hfinal. cbn [querySelectorAll].
  rewrite (flat_map_select_group_above _ _ []).
  intros Hfound.
  apply has_text_font_unattributed.
  assert (erase unattributed found
          ∈ map (erase unattributed) (flat_map (select (Group [ByTag "text"]) []) cs))
    as Herased by (apply elem_of_map; by exists found).
  rewrite <- (flat_map_select_erased unattributed _ [] _ unattributed_selectors) in Herased.
  cbn [map] in Herased. rewrite Hchildren in Herased.
  rewrite (flat_map_select_erased unattributed _ [] _ unattributed_selectors) in Herased.
  apply elem_of_map in Herased as (original & Heq & Horiginal).
  rewrite Heq. apply has_text_font_unattributed.
  apply (proj1 (Forall_forall _ _) Hstyled original Horiginal).
Qed.

(** X16.  The [then] handler changes inline styles and attributes only:
    the elements, their tags, ids and classes and the text are those of
    the parsed markup.  It logs nothing; and markup without an [svg]
    element is inserted as it is. *)
Theorem rendered_markup_keeps_its_structure (p : MindmapViewerProps)
    (events : list Event) (n : nat) (k : Closure) (result : RenderResult) :
  let c := run host (mount host p) events in
  rendering c !! n = Some k ->
  let c' := step host c (RenderSettles n (Resolved result)) in
  let parsed := parseHTML host (svg result) in
  console c' = console c
  /\ exists content,
       diagrams c' !! index k = Some content
       /\ map (erase bare) content = map (erase bare) parsed
       /\ (Forall (fun m => has_tag "svg" m = false) parsed -> content = parsed).
Proof.
  intros c Hk c' parsed.
  destruct (run_in_range host p events) as [_ Hrendering]. fold c in Hrendering.
  assert (index k < length (diagrams c)) as Hlt.
  { apply (proj1 (Forall_forall _ _) Hrendering).
    by eapply list_elem_of_lookup_2. }
  unfold c'. cbn [step]. rewrite Hk.
  unfold then_catch, try_catch, onRendered, settle, set_diagram.
  cbn [diagrams console]. fold parsed.
  split; [done|].
  eexists. split; [by apply list_lookup_insert_eq|]. split.
  - destruct (update_first_in _ _ parsed) as [content|] eqn:Hupdated; [|done].
    cbn [default].
    eapply erase_update_first_in; [|exact Hupdated].
    intros m. by apply erase_decorate.
  - intros Hnone.
    by rewrite (update_first_in_none _ _ "svg" parsed (matches_tag "svg") Hnone).
Qed.



End Content.

Lemma every_text_element_gets_the_font_witness :
  let found := Elem (style_text (mkElem "text" None EmptyString [] []))
                 [ Text (Str (lit "Root")) ] in
  found ∈ querySelectorAll (Group [ByTag "text"]) [] (decorate ∅ 0 sample_svg)
  /\ has_text_font found.
Proof.
  intros found.
  assert (found ∈ querySelectorAll (Group [ByTag "text"]) [] (decorate ∅ 0 sample_svg))
    as Hfound by (vm_compute; apply list_elem_of_here).
  split; [exact Hfound|].
  apply (every_text_element_gets_the_font ∅ 0 _ _ [] found Hfound).
Defined.

Lemma rendered_markup_keeps_its_structure_witness :
  let p := mkProps (Some [sample_mindmap]) None in
  let c := run sample_host (mount sample_host p) [TimerFires None] in
  let c' := step sample_host c
              (RenderSettles 0 (Resolved (mkRenderResult sample_markup))) in
  rendering c !! 0 = Some (mkClosure 0 [sample_mindmap] ∅)
  /\ exists content,
       diagrams c' !! 0 = Some content
       /\ map (erase bare) content = map (erase bare) [sample_svg].
Proof.
  intros p c c'.
  assert (rendering c !! 0 = Some (mkClosure 0 [sample_mindmap] ∅)) as Hk
    by (vm_compute; reflexivity).
  split; [exact Hk|].
  destruct (rendered_markup_keeps_its_structure sample_host p [TimerFires None] 0 _
              (mkRenderResult sample_markup) Hk)
    as (_ & content & Hcontent & Hsame & _).
  exists content. split; [exact Hcontent | exact Hsame].
Defined.


(** ** The name of the downloaded file *)

Lemma replace_runs_plain (in_run : bool) (s : JsString) :
  Forall (fun c => is_whitespace c = false) (replace_runs in_run s).
Proof.
  revert in_run. induction s as [|c s IH]; intros in_run; [constructor|].
  cbn [replace_runs]. destruct (is_whitespace c) eqn:Hc.
  - destruct in_run; [apply IH|]. apply Forall_cons. split; [reflexivity | apply IH].
  - apply Forall_cons. split; [exact Hc | apply IH].
Qed.

Lemma replace_runs_id (in_run : bool) (s : JsString) :
  Forall (fun c => is_whitespace c = false) s -> replace_runs in_run s = s.
Proof.
  intros Hs. revert in_run.
  induction Hs as [|c s Hc _ IH]; intros in_run; [done|].
  cbn [replace_runs]. by rewrite Hc, IH.
Qed.

(** X18.  The suggested file name contains no white space at all,
    whatever the title; a title without white space is used as it is. *)
Theorem download_name_has_no_whitespace (mindmap : Mindmap) :
  Forall (fun c => is_whitespace c = false) (download_name mindmap)
  /\ (Forall (fun c => is_whitespace c = false) (title mindmap) ->
      download_name mindmap = title mindmap ++ lit "_mindmap.svg").
Proof.
  unfold download_name, replace_whitespace. split.
  - apply Forall_app. split; [apply replace_runs_plain|].
    assert (forallb (fun c => negb (is_whitespace c)) (lit "_mindmap.svg") = true)
      as Hsuffix by (vm_compute; reflexivity).
    apply Forall_forall. intros c Hc%list_elem_of_In.
    apply negb_true_iff. revert c Hc. by apply forallb_forall.
  - intros Hplain. by rewrite replace_runs_id.
Qed.

(** X19.  A run of white space counts once, however long it is and
    whichever white space characters it is made of: titles that differ
    only in that get the same file name.  Replacing again changes
    nothing. *)
Theorem whitespace_runs_collapse (before after : JsString) (w w' : N) :
  is_whitespace w = true ->
  is_whitespace w' = true ->
  replace_whitespace (before ++ w :: w' :: after) = replace_whitespace (before ++ w :: after)
  /\ replace_whitespace (before ++ w' :: after) = replace_whitespace (before ++ w :: after)
  /\ replace_whitespace (replace_whitespace (before ++ w :: after))
     = replace_whitespace (before ++ w :: after).
Proof.
  intros Hw Hw'. unfold replace_whitespace.
  split; [|split].
  - generalize false.
    induction before as [|c before IH]; intros in_run; cbn [app replace_runs].
    + rewrite Hw, Hw'. by destruct in_run.
    + destruct (is_whitespace c), in_run; by rewrite IH.
  - generalize false.
    induction before as [|c before IH]; intros in_run; cbn [app replace_runs].
    + by rewrite Hw, Hw'.
    + destruct (is_whitespace c), in_run; by rewrite IH.
  - apply replace_runs_id, replace_runs_plain.
Qed.

Lemma whitespace_runs_collapse_witness :
  replace_whitespace (lit "Cell" ++ 32%N :: 9%N :: lit "biology")
  = replace_whitespace (lit "Cell biology").
Proof.
  destruct (whitespace_runs_collapse (lit "Cell") (lit "biology") 32 9 eq_refl eq_refl)
    as [Hcollapse _].
  exact Hcollapse.
Defined.

Section Exported.

Variable host : Host.

(** X20.  When the selector does find an element, one click starts
    exactly one download: the file is named after the title, and its
    content is the serialized element, typed [image/svg+xml].  The handler
    returns normally and the downloads started before are kept. *)
Theorem found_svg_is_downloaded_once (container : option Node) (index : nat)
    (mindmap : Mindmap) (found : Node) (w : Browser) :
  (root ← container;
   querySelector (Within (ById (key index)) (ByTag "svg")) (ancestors host) root)
    = Some found ->
  let (result, w') := handleDownload host container index mindmap w in
  result = inr ()
  /\ downloads w'
     = downloads w
       ++ [mkDownload (Some (download_name mindmap))
             (Some (mkBlob (serializeToString host found) "image/svg+xml"))].
Proof.
  intros Hfound. by rewrite (handleDownload_found host _ _ _ _ w Hfound).
Qed.

End Exported.

Lemma found_svg_is_downloaded_once_witness :
  let page := el "div" "space-y-8"
                [ Elem (mkElem "div" (Some (key 0)) "mindmap-diagram" [] [])
                    [ sample_svg ] ] in
  downloads (snd (handleDownload sample_host (Some page) 0 sample_mindmap
                    (mkBrowser [7] ∅ [])))
  = [ mkDownload (Some (lit "Cell_biology_notes_mindmap.svg"))
        (Some (mkBlob (serializeToString sample_host sample_svg) "image/svg+xml")) ].
Proof.
  intros page.
  assert ((root ← Some page;
           querySelector (Within (ById (key 0)) (ByTag "svg")) (ancestors sample_host) root)
          = Some sample_svg) as Hfound by (vm_compute; reflexivity).
  pose proof (found_svg_is_downloaded_once sample_host (Some page) 0 sample_mindmap
                sample_svg (mkBrowser [7] ∅ []) Hfound) as Hdownload.
  destruct (handleDownload sample_host (Some page) 0 sample_mindmap (mkBrowser [7] ∅ []))
    as [result w'].
  destruct Hdownload as [_ Hdownloads]. exact Hdownloads.
Defined.

(** ** The cards *)

Section Cards.

Variable host : Host.

Local Abbreviation headings := (Group [ByTag "h3"]).

Lemma headings_of_card (zs : ZoomStates) (above : list ElemData) (index : nat)
    (m : Mindmap) :
  Forall (fun n => has_tag "h3" n = false) (NeonBorder host) ->
  map children_of (select headings above (card host zs spinner index m))
  = [[Text (Str (title m))]].
Proof.
  intros Hplain. unfold card, el. cbn [select]. rewrite flat_map_app.
  assert (forall above', flat_map (select headings above') (NeonBorder host) = [])
    as Hnone.
  { intros above'. apply flat_map_nil_Forall.
    eapply Forall_impl; [exact Hplain|]. intros n Hn.
    clear -Hn. revert above'.
    induction n as [data | e children IH] using Node_forest_ind; intros above'; [done|].
    cbn [has_tag] in Hn. apply orb_false_elim in Hn as [Hroot Hchildren].
    cbn [select matches existsb matches_simple]. rewrite Hroot. cbn [orb app].
    apply flat_map_nil_Forall. apply existsb_false_Forall in Hchildren.
    apply Forall_forall. intros c Hc.
    apply (proj1 (Forall_forall _ _) IH c Hc).
    apply (proj1 (Forall_forall _ _) Hchildren c Hc). }
  rewrite Hnone. reflexivity.
Qed.

Lemma headings_of_cards (zs : ZoomStates) (above : list ElemData) (ms : list Mindmap)
    (from : nat) :
  Forall (fun n => has_tag "h3" n = false) (NeonBorder host) ->
  map children_of
    (flat_map (select headings above)
       (imap (fun index mindmap => card host zs spinner (from + index) mindmap) ms))
  = map (fun m => [Text (Str (title m))]) ms.
Proof.
  intros Hplain. revert from.
  induction ms as [|m ms IH]; intros from; [done|].
  rewrite imap_cons. cbn [flat_map map]. rewrite map_app.
  rewrite (headings_of_card zs above _ m Hplain). cbn [app]. f_equal.
  rewrite <- (IH (S from)). do 2 f_equal.
  apply imap_ext. intros i x _. simpl. f_equal. lia.
Qed.

(** X21.  What React renders shows the titles in the order of the list:
    the [h3] elements of the component are the card headings, one per
    entry, each holding the entry's title as text. *)
Theorem titles_are_shown_in_list_order (ms : list Mindmap) (t : option float)
    (zs : ZoomStates) :
  Forall (fun n => has_tag "h3" n = false) (NeonBorder host) ->
  map children_of
    (querySelectorAll headings (ancestors host) (render host (mkProps (Some ms) t) zs))
  = map (fun m => [Text (Str (title m))]) ms.
Proof.
  intros Hplain. unfold render, view. cbn [mindmaps processingTime].
  destruct ms as [|m ms]; [done|].
  set (entries := m :: ms).
  unfold el. cbn [querySelectorAll]. rewrite !flat_map_app, !map_app.
  assert (flat_map (select headings (mkElem "div" None "space-y-8" [] [] :: ancestors host))
            (processing_line t) = []) as ->.
  { destruct t as [t|]; [|done]. unfold processing_line.
    by destruct (Number.truthy t). }
  assert (flat_map (select headings (mkElem "div" None "space-y-8" [] [] :: ancestors host))
            (if (0 <? length entries)%nat then [start_study_streak] else []) = []) as ->
    by (by destruct (0 <? length entries)%nat).
  cbn [map app]. rewrite app_nil_r.
  rewrite (imap_ext _ (fun index mindmap => card host zs spinner (0 + index) mindmap))
    by (intros i x _; by rewrite lookup_nil).
  by apply headings_of_cards.
Qed.

End Cards.

Lemma titles_are_shown_in_list_order_witness :
  let second := mkMindmap (lit "Mitosis") (lit "mindmap") in
  map children_of
    (querySelectorAll (Group [ByTag "h3"]) (ancestors sample_host)
       (render sample_host (mkProps (Some [sample_mindmap; second]) None) ∅))
  = [[Text (Str (title sample_mindmap))]; [Text (Str (lit "Mitosis"))]].
Proof.
  intros second.
  assert (Forall (fun n => has_tag "h3" n = false) (NeonBorder sample_host)) as Hplain
    by (repeat constructor).
  apply (titles_are_shown_in_list_order sample_host [sample_mindmap; second] None ∅ Hplain).
Defined.

(** ** The call-to-action *)

(** X22.  A click on 'Start Study Streak' stores the serialized list
    under [current_mindmaps], leaves every other key of the session
    storage alone and then navigates to [/study-streaks].  When the
    storage refuses the write, the handler throws before it navigates:
    nothing is stored and the user stays on the page. *)
Theorem study_streak_stores_then_navigates (stringify : list Mindmap -> JsString)
    (fits : gmap JsString JsString -> bool) (mindmaps : list Mindmap) (s : Session) :
  match handleStartStudyStreak stringify fits mindmaps s with
  | Normal s' =>
      storage s' !! lit "current_mindmaps" = Some (stringify mindmaps)
      /\ (forall k, k <> lit "current_mindmaps" -> storage s' !! k = storage s !! k)
      /\ visited s' = visited s ++ [lit "/study-streaks"]
  | Throws e s' =>
      fits (<[lit "current_mindmaps" := stringify mindmaps]> (storage s)) = false
      /\ error_name e = "QuotaExceededError"
      /\ s' = s
  end.
Proof.
  unfold handleStartStudyStreak, setItem, navigate.
  destruct (fits _) eqn:Hfits; cbn [storage visited].
  - split; [apply lookup_insert_eq|]. split; [|done].
    intros k Hk. by apply lookup_insert_ne.
  - done.
Qed.
